(** * CONLL-U pipeline (lab_6_pipeline/pipeline.py): a shallow embedding

    Python values are modelled as follows.
    - [str] is a list of Unicode code points ([N]); ASCII literals of the
      source are written [lit "..."].
    - a raised exception is the [Raise] branch of [result].
    - the tag mapping read by [json.load] is a finite map of finite maps.
    - the dictionary [_storage] keeps insertion order, as Python's [dict]
      does, and is an association list with unique keys. *)

From Stdlib Require Import String Ascii ZArith NArith List Sorting.Sorted
  Sorting.Permutation DecimalString Lia.
From Stdlib Require Import Program.Tactics.
From stdpp Require Import base option list gmap.

Local Open Scope N_scope.
Local Open Scope list_scope.

(** ** Strings *)

Abbreviation char := N.
Abbreviation str := (list N).

Fixpoint lit (s : string) : str :=
  match s with
  | EmptyString => []
  | String a s' => N_of_ascii a :: lit s'
  end.

Definition str_eqb (a b : str) : bool := bool_decide (a = b).

(** ** Exceptions *)

Inductive exn : Type :=
  | FileNotFoundError
  | NotADirectoryError
  | InconsistentDatasetError
  | EmptyDirectoryError
  | ValueError
  | KeyError.

Inductive result (A : Type) : Type :=
  | Ok (a : A)
  | Raise (e : exn).
Arguments Ok {A} a.
Arguments Raise {A} e.

(** Sequencing: the first exception raised propagates.  With these
    instances stdpp's [x ← r; k] is Python's statement sequence. *)
#[global] Instance result_ret : MRet result := fun _ a => Ok a.
#[global] Instance result_bind : MBind result := fun _ _ k r =>
  match r with
  | Ok a => k a
  | Raise e => Raise e
  end.

Definition raises {A} (r : result A) : Prop := exists e, r = Raise e.

(** [d[k]] on a mapping: [KeyError] when the key is missing. *)
Definition getitem {V} (d : gmap str V) (k : str) : result V :=
  match d !! k with
  | Some v => Ok v
  | None => Raise KeyError
  end.

(** ** Builtins of [str] used by the module *)

(** [sep.join(parts)] *)
Fixpoint join (sep : str) (parts : list str) : str :=
  match parts with
  | [] => []
  | [p] => p
  | p :: rest => p ++ sep ++ join sep rest
  end.

Fixpoint is_prefix (p s : str) : bool :=
  match p, s with
  | [], _ => true
  | _ :: _, [] => false
  | a :: p', b :: s' => (a =? b) && is_prefix p' s'
  end.

(** [s.endswith(suf)] *)
Definition endswith (s suf : str) : bool := is_prefix (rev suf) (rev s).

(** [s.replace(old, new)] for a non-empty [old]: scan left to right; at an
    occurrence of [old] emit [new] and skip the rest of the occurrence. *)
Fixpoint replace_from (old new : str) (skip : nat) (s : str) : str :=
  match s with
  | [] => []
  | c :: s' =>
      match skip with
      | S k => replace_from old new k s'
      | O =>
          if is_prefix old s
          then new ++ replace_from old new (Nat.pred (length old)) s'
          else c :: replace_from old new O s'
      end
  end.

Definition replace (s old new : str) : str := replace_from old new O s.

(** [s.split(sep)[0]] for a one-character separator. *)
Fixpoint split_head (sep : char) (s : str) : str :=
  match s with
  | [] => []
  | c :: s' => if c =? sep then [] else c :: split_head sep s'
  end.

(** ** The regular expressions of the module, over one character class *)

Section Runs.
Variable cls : char -> bool.

Fixpoint take_run (s : str) : str :=
  match s with
  | [] => []
  | c :: s' => if cls c then c :: take_run s' else []
  end.

(** [re.search(cls+, s)]: the leftmost, longest run; [None] if no
    character of the class occurs. *)
Fixpoint re_search (s : str) : option str :=
  match s with
  | [] => None
  | c :: s' => if cls c then Some (c :: take_run s') else re_search s'
  end.

(** [re.findall(cls+, s)]: all maximal runs, left to right.  [cur] is the
    run being read, reversed. *)
Fixpoint findall_from (cur : str) (s : str) : list str :=
  match s with
  | [] => match cur with [] => [] | _ => [rev cur] end
  | c :: s' =>
      if cls c then findall_from (c :: cur) s'
      else match cur with
           | [] => findall_from [] s'
           | _ => rev cur :: findall_from [] s'
           end
  end.

Definition re_findall (s : str) : list str := findall_from [] s.

(** [re.sub(cls+, '', s)]: every maximal run is replaced by the empty
    string; [in_run] tells whether the current match has begun. *)
Fixpoint sub_from (repl : str) (in_run : bool) (s : str) : str :=
  match s with
  | [] => []
  | c :: s' =>
      if cls c
      then (if in_run then [] else repl) ++ sub_from repl true s'
      else c :: sub_from repl false s'
  end.

Definition re_sub (repl s : str) : str := sub_from repl false s.
End Runs.

(** [[A-Z]] and [[а-я]] (U+0430 .. U+044F). *)
Definition upper_AZ (c : char) : bool := (65 <=? c) && (c <=? 90).
Definition cyr_lower (c : char) : bool := (1072 <=? c) && (c <=? 1103).

(** ** Ordering of strings and [sorted] *)

(** Python compares strings code point by code point. *)
Fixpoint str_ltb (a b : str) : bool :=
  match a, b with
  | [], [] => false
  | [], _ :: _ => true
  | _ :: _, [] => false
  | x :: a', y :: b' => (x <? y) || ((x =? y) && str_ltb a' b')
  end.

Definition str_leb (a b : str) : bool := str_eqb a b || str_ltb a b.

Section Sorted.
Context {A : Type} (leb : A -> A -> bool).

Fixpoint insert_sorted (x : A) (l : list A) : list A :=
  match l with
  | [] => [x]
  | y :: l' => if leb x y then x :: l else y :: insert_sorted x l'
  end.

(** [sorted(l)] *)
Fixpoint sorted (l : list A) : list A :=
  match l with
  | [] => []
  | x :: l' => insert_sorted x (sorted l')
  end.
End Sorted.

(** Tuples [(category, value)] compare lexicographically. *)
Definition item_leb (a b : str * str) : bool :=
  str_ltb a.1 b.1 || (str_eqb a.1 b.1 && str_leb a.2 b.2).

(** ** Tag converters *)

(** The base class [TagConverter] (core_utils.article.ud, not among the
    sources): the names of the categories are class attributes and
    [_tag_mapping] is the JSON object loaded at construction.  All of them
    are left open, as the fields of a converter. *)
Record TagConverter : Type := {
  pos : str;
  case : str;
  number : str;
  gender : str;
  animacy : str;
  tense : str;
  _tag_mapping : gmap str (gmap str str)
}.

(** [f'{category}={value}'] *)
Definition fmt_feature (item : str * str) : str :=
  item.1 ++ lit "=" ++ item.2.

Module MystemTagConverter.

(** [convert_pos] *)
Definition convert_pos (self : TagConverter) (tags : str) : result str :=
  match re_search upper_AZ tags with
  | None => Ok []
  | Some code =>
      table ← getitem (_tag_mapping self) (lit "POS");
      match (table : gmap str str) !! code with
      | Some ud_pos => Ok ud_pos
      | None => Ok []
      end
  end.

(** The dictionary literal [pos_specific_categories]. *)
Definition pos_specific_categories (self : TagConverter)
  : list (str * list str) :=
  [ (lit "NOUN", [case self; number self; gender self; animacy self]);
    (lit "VERB", [tense self; number self; gender self]);
    (lit "ADJ", [case self; number self; gender self]);
    (lit "NUM", [case self; number self; gender self]);
    (lit "PRON", [case self; number self; gender self; animacy self]) ].

(** [pos_specific_categories[pos]] *)
Fixpoint literal_getitem {V} (d : list (str * V)) (k : str) : result V :=
  match d with
  | [] => Raise KeyError
  | (k', v) :: d' => if str_eqb k' k then Ok v else literal_getitem d' k
  end.

(** The inner [for tag in extracted_tags if tag in mapping[category]] of
    the comprehension; a later tag of the same category overwrites. *)
Fixpoint collect_tags (self : TagConverter) (category : str)
    (extracted_tags : list str) (ud_tags : gmap str str)
  : result (gmap str str) :=
  match extracted_tags with
  | [] => Ok ud_tags
  | tag :: rest =>
      table ← getitem (_tag_mapping self) category;
      match (table : gmap str str) !! tag with
      | Some value =>
          collect_tags self category rest (<[category := value]> ud_tags)
      | None => collect_tags self category rest ud_tags
      end
  end.

(** The outer [for category in pos_specific_categories[pos]]. *)
Fixpoint collect_categories (self : TagConverter) (categories : list str)
    (extracted_tags : list str) (ud_tags : gmap str str)
  : result (gmap str str) :=
  match categories with
  | [] => Ok ud_tags
  | category :: rest =>
      ud_tags' ← collect_tags self category extracted_tags ud_tags;
      collect_categories self rest extracted_tags ud_tags'
  end.

Definition extract_tags (tags : str) : list str :=
  re_findall cyr_lower
    (split_head 124 (replace (replace tags (lit "(") []) (lit ")") [])).

(** [convert_morphological_tags] *)
Definition convert_morphological_tags (self : TagConverter) (tags : str)
  : result str :=
  pos ← convert_pos self tags;
  let extracted_tags := extract_tags tags in
  categories ← literal_getitem (pos_specific_categories self) pos;
  ud_tags ← collect_categories self categories extracted_tags ∅;
  Ok (join (lit "|")
        (map fmt_feature (sorted item_leb (map_to_list ud_tags)))).

End MystemTagConverter.

(** The tag object of the fallback analyzer: an attribute that is missing
    or [None] is [None] here. *)
Record OpencorporaTag : Type := {
  oc_POS : option str;
  oc_case : option str;
  oc_number : option str;
  oc_gender : option str;
  oc_animacy : option str
}.

Module OpenCorporaTagConverter.

(** [convert_pos] *)
Definition convert_pos (self : TagConverter) (tags : OpencorporaTag)
  : result str :=
  table ← getitem (_tag_mapping self) (pos self);
  getitem (table : gmap str str)
    (match oc_POS tags with
     | Some ((_ :: _) as p) => p
     | _ => lit "UNKN"
     end).

(** [parsed_tags], in the order of the attribute list. *)
Definition parsed_tags (tags : OpencorporaTag) : list (str * option str) :=
  [ (lit "case", oc_case tags);
    (lit "number", oc_number tags);
    (lit "gender", oc_gender tags);
    (lit "animacy", oc_animacy tags) ].

(** One iteration of the loop over [parsed_tags.items()]: the entry that
    is appended to [tags_list], if any. *)
Definition feature_of (self : TagConverter) (entry : str * option str)
  : option str :=
  match entry.2 with
  | Some ((_ :: _) as value) =>
      match default ∅ (_tag_mapping self !! entry.1) !! value with
      | Some mapped_value => Some (fmt_feature (entry.1, mapped_value))
      | None => None
      end
  | _ => None
  end.

(** [convert_morphological_tags] *)
Definition convert_morphological_tags (self : TagConverter)
    (tags : OpencorporaTag) : str :=
  join (lit "|") (omap (feature_of self) (parsed_tags tags)).

End OpenCorporaTagConverter.

(** A converter over a small table in the shape of the mapping files. *)
Definition sample_mapping : gmap str (gmap str str) :=
  list_to_map
    [ (lit "POS", list_to_map [ (lit "S", lit "NOUN"); (lit "V", lit "VERB");
                                (lit "A", lit "ADJ"); (lit "ADV", lit "ADV") ]);
      (lit "Case", list_to_map [ ([1080; 1084], lit "Nom");
                                 ([1088; 1086; 1076], lit "Gen") ]);
      (lit "Number", list_to_map [ ([1077; 1076], lit "Sing");
                                   ([1084; 1085], lit "Plur") ]);
      (lit "Gender", list_to_map [ ([1078; 1077; 1085], lit "Fem");
                                   ([1084; 1091; 1078], lit "Masc") ]);
      (lit "Animacy", list_to_map [ ([1086; 1076], lit "Anim");
                                    ([1085; 1077; 1086; 1076], lit "Inan") ]);
      (lit "Tense", list_to_map [ ([1087; 1088; 1086; 1096], lit "Past") ]);
      (lit "gender", list_to_map [ (lit "femn", lit "Fem") ]);
      (lit "animacy", list_to_map [ (lit "anim", lit "Anim") ]) ].

Definition sample_converter : TagConverter :=
  {| pos := lit "POS"; case := lit "Case"; number := lit "Number";
     gender := lit "Gender"; animacy := lit "Animacy"; tense := lit "Tense";
     _tag_mapping := sample_mapping |}.


(** ** Character data of the interpreter *)

(** What the module asks of the Unicode tables of the interpreter:
    [\w] of [re], the character tests behind [str.isalpha], [str.isdigit]
    and [str.isupper], and [str.lower].  A letter is never a digit, and
    the space is neither. *)
Record UnicodeData : Type := {
  is_word : char -> bool;
  is_alpha : char -> bool;
  is_digit : char -> bool;
  is_upper : char -> bool;
  lower : str -> str;
  alpha_not_digit : forall c, is_alpha c = true -> is_digit c = false;
  space_not_alpha : is_alpha 32 = false;
  space_not_digit : is_digit 32 = false
}.

Section StrTests.
Variable U : UnicodeData.

(** [s.isalpha()] and [s.isdigit()]: every character passes the test and
    there is at least one character. *)
Definition isalpha (s : str) : bool :=
  match s with
  | [] => false
  | _ => forallb (is_alpha U) s
  end.

Definition isdigit (s : str) : bool :=
  match s with
  | [] => false
  | _ => forallb (is_digit U) s
  end.

(** [\W] *)
Definition non_word (c : char) : bool := negb (is_word U c).

(** [re.compile(r'\w+|[.]').match(s)]: a match at the start of [s]. *)
Definition word_regex_match (s : str) : bool :=
  match s with
  | [] => false
  | c :: _ => is_word U c || (c =? 46)
  end.
End StrTests.

(** The tables restricted to ASCII, the Cyrillic block U+0400 .. U+045F
    and U+2102 (DOUBLE-STRUCK CAPITAL C, an uppercase letter without a
    lowercase form).  Other code points are outside this fragment and are
    given no class here. *)
Module Fragment.
Definition in_range (lo hi c : char) : bool := (lo <=? c) && (c <=? hi).

Definition alpha (c : char) : bool :=
  in_range 65 90 c || in_range 97 122 c || in_range 1024 1119 c
  || (c =? 8450).
Definition digit (c : char) : bool := in_range 48 57 c.
Definition word (c : char) : bool := alpha c || digit c || (c =? 95).
Definition upper (c : char) : bool :=
  in_range 65 90 c || in_range 1024 1071 c || (c =? 8450).

Definition lower_char (c : char) : char :=
  if in_range 65 90 c then c + 32
  else if in_range 1024 1039 c then c + 80
  else if in_range 1040 1071 c then c + 32
  else c.

Program Definition data : UnicodeData :=
  {| is_word := word; is_alpha := alpha; is_digit := digit;
     is_upper := upper; lower := map lower_char |}.
Next Obligation.
  intros c. unfold alpha, digit, in_range.
  rewrite !orb_true_iff, !andb_true_iff, !N.leb_le, N.eqb_eq.
  intros H. apply andb_false_iff. rewrite !N.leb_gt. lia.
Qed.
Next Obligation. reflexivity. Qed.
Next Obligation. reflexivity. Qed.
End Fragment.

(** ** Tokens and sentences *)

(** [str(n)] for an integer. *)
Definition str_of_int (n : Z) : str :=
  lit (NilZero.string_of_int (Z.to_int n)).

Module MorphologicalTokenDTO.
Record t : Type := { lemma : str; pos : str; tags : str }.

(** The default arguments of [__init__]. *)
Definition default : t := {| lemma := []; pos := []; tags := [] |}.
End MorphologicalTokenDTO.

Module ConlluToken.
Record t : Type := {
  _text : str;
  position : Z;
  _morphological_parameters : MorphologicalTokenDTO.t
}.

Definition __init__ (text : str) : t :=
  {| _text := text; position := 0;
     _morphological_parameters := MorphologicalTokenDTO.default |}.

Definition set_position (self : t) (position : Z) : t :=
  {| _text := _text self; position := position;
     _morphological_parameters := _morphological_parameters self |}.

Definition set_morphological_parameters (self : t)
    (parameters : MorphologicalTokenDTO.t) : t :=
  {| _text := _text self; position := position self;
     _morphological_parameters := parameters |}.

(** The ten columns joined by [get_conllu_text]. *)
Definition columns (self : t) (include_morphological_tags : bool)
  : list str :=
  let position := str_of_int (position self) in
  let text := _text self in
  let lemma := MorphologicalTokenDTO.lemma (_morphological_parameters self) in
  let pos := MorphologicalTokenDTO.pos (_morphological_parameters self) in
  let xpos := lit "_" in
  let feats :=
    match include_morphological_tags,
          MorphologicalTokenDTO.tags (_morphological_parameters self) with
    | true, (_ :: _) as tags => tags
    | _, _ => lit "_"
    end in
  let head := lit "0" in
  let deprel := lit "root" in
  let deps := lit "_" in
  let misc := lit "_" in
  [position; text; lemma; pos; xpos; feats; head; deprel; deps; misc].

Definition get_conllu_text (self : t) (include_morphological_tags : bool)
  : str :=
  join [9] (columns self include_morphological_tags).
End ConlluToken.

Module ConlluSentence.
Record t : Type := {
  _position : Z;
  _text : str;
  _tokens : list ConlluToken.t
}.

(** The two comment lines that open a sentence block. *)
Definition header (self : t) : str :=
  lit "# sent_id = " ++ str_of_int (_position self) ++ [10]
    ++ lit "# text = " ++ _text self ++ [10].

Definition get_conllu_text (self : t) (include_morphological_tags : bool)
  : str :=
  let conllu_tokens :=
    map (fun token =>
           ConlluToken.get_conllu_text token include_morphological_tags)
        (_tokens self) in
  header self ++ join [10] conllu_tokens ++ [10].

Definition get_cleaned_sentence (U : UnicodeData) (self : t) : str :=
  re_sub (non_word U) [] (lower U (_text self)).

Definition get_tokens (self : t) : list ConlluToken.t := _tokens self.
End ConlluSentence.

(** ** The pipeline *)

(** One entry of the list returned by [Mystem.analyze]: the key
    ['analysis'] may be missing, and its list may be empty. *)
Record MystemAnalysis : Type := { lex : str; gr : str }.
Record MystemToken : Type := {
  text : str;
  analysis : option (list MystemAnalysis)
}.

Module MorphologicalAnalysisPipeline.
Section Pipeline.
Variable U : UnicodeData.
(** [self._converter], [self._mystem_analyzer.analyze] and
    [split_by_sentence] of core_utils. *)
Variable _converter : TagConverter.
Variable analyze : str -> list MystemToken.
Variable split_by_sentence : str -> list str.

(** Lines 296-297: the text kept for the token. *)
Definition surface (token : MystemToken) : str :=
  if endswith (text token) (lit ". ")
  then replace (text token) (lit ". ") (lit ".")
  else text token.

(** Lines 299-309 and 313: the morphological parameters of a retained
    token whose text is [token_text]. *)
Definition annotate (token_text : str)
    (token_analysis : option (list MystemAnalysis))
  : result MorphologicalTokenDTO.t :=
  if isalpha U token_text then
    match token_analysis with
    | Some (first :: _) =>
        let lemma := lex first in
        let gram_info := gr first in
        pos ← MystemTagConverter.convert_pos _converter gram_info;
        tags ← MystemTagConverter.convert_morphological_tags
                 _converter gram_info;
        Ok {| MorphologicalTokenDTO.lemma := lemma;
              MorphologicalTokenDTO.pos := pos;
              MorphologicalTokenDTO.tags := tags |}
    | _ =>
        Ok {| MorphologicalTokenDTO.lemma := token_text;
              MorphologicalTokenDTO.pos := lit "X";
              MorphologicalTokenDTO.tags := [] |}
    end
  else if isdigit U token_text then
    Ok {| MorphologicalTokenDTO.lemma := token_text;
          MorphologicalTokenDTO.pos := lit "NUM";
          MorphologicalTokenDTO.tags := [] |}
  else
    Ok {| MorphologicalTokenDTO.lemma := token_text;
          MorphologicalTokenDTO.pos := lit "PUNCT";
          MorphologicalTokenDTO.tags := [] |}.

(** The loop over [mystem_analysis]; [sentence_counter] is its value
    before the iteration.  (The variable [counter] of the source is
    written but never read.) *)
Fixpoint process_tokens (mystem_analysis : list MystemToken)
    (sentence_counter : Z) : result (list ConlluToken.t) :=
  match mystem_analysis with
  | [] => Ok []
  | token :: rest =>
      if negb (word_regex_match U (text token))
      then process_tokens rest sentence_counter
      else
        let sentence_counter := (sentence_counter + 1)%Z in
        let token_text := surface token in
        parameters ← annotate token_text (analysis token);
        let conllu_token :=
          ConlluToken.set_morphological_parameters
            (ConlluToken.set_position (ConlluToken.__init__ token_text)
               sentence_counter)
            parameters in
        conllu_tokens ← process_tokens rest sentence_counter;
        Ok (conllu_token :: conllu_tokens)
  end.

(** The loop over [enumerate(split_by_sentence(text))]. *)
Fixpoint process_sentences (sentences : list str) (sentence_idx : Z)
  : result (list ConlluSentence.t) :=
  match sentences with
  | [] => Ok []
  | sentence :: rest =>
      conllu_tokens ← process_tokens (analyze sentence) 0;
      let sentence_obj :=
        {| ConlluSentence._position := sentence_idx;
           ConlluSentence._text := sentence;
           ConlluSentence._tokens := conllu_tokens |} in
      sentences' ← process_sentences rest (sentence_idx + 1)%Z;
      Ok (sentence_obj :: sentences')
  end.

Definition _process (text : str) : result (list ConlluSentence.t) :=
  process_sentences (split_by_sentence text) 0.
End Pipeline.
End MorphologicalAnalysisPipeline.

(** ** The corpus *)

(** What the module observes of a file of the directory: its name, the
    size reported by [stat] and the text read by [from_raw]. *)
Record File : Type := { name : str; st_size : N; content : str }.

(** What the module observes of [path_to_raw_txt_data]; the entries of a
    directory come in the order in which the file system lists them. *)
Inductive Path : Type :=
  | Missing
  | RegularFile
  | Directory (entries : list File).

(** What [glob] iterates over: nothing, unless the path is a directory. *)
Definition listing (path : Path) : list File :=
  match path with
  | Directory entries => entries
  | _ => []
  end.

(** [path.glob('*' + suffix)] *)
Definition glob (suffix : str) (entries : list File) : list File :=
  filter (fun file => endswith (name file) suffix = true) entries.

(** [file.stem]: the name without its last suffix; a dot that opens or
    closes the name starts no suffix. *)
Definition stem (file_name : str) : str :=
  let after_dot := take_run (fun c => negb (c =? 46)) (rev file_name) in
  let i := (length file_name - S (length after_dot))%nat in
  if bool_decide (length after_dot < length file_name
                  ∧ 0 < i ∧ 0 < length after_dot)%nat
  then take i file_name
  else file_name.

(** An article of core_utils, as far as the module uses it. *)
Record Article : Type := {
  article_id : Z;
  article_text : str;
  _conllu_sentences : list ConlluSentence.t
}.

(** A [dict] keeps its keys in insertion order; assigning to a key that is
    present replaces the value where it stands. *)
Fixpoint dict_set {V} (d : list (Z * V)) (k : Z) (v : V) : list (Z * V) :=
  match d with
  | [] => [(k, v)]
  | (k', v') :: d' =>
      if (k' =? k)%Z then (k, v) :: d' else (k', v') :: dict_set d' k v
  end.

Module CorpusManager.
Section Corpus.
(** [int(s)] of the interpreter: [None] stands for [ValueError]. *)
Variable int : str -> option Z.

(** [int(file.stem.split("_")[0])] *)
Definition file_index (file : File) : result Z :=
  match int (split_head 95 (stem (name file))) with
  | Some n => Ok n
  | None => Raise ValueError
  end.

(** A list comprehension over [file_index]: the first failure raises. *)
Fixpoint indices (files : list File) : result (list Z) :=
  match files with
  | [] => Ok []
  | file :: rest =>
      n ← file_index file;
      ns ← indices rest;
      Ok (n :: ns)
  end.

(** [for id1, id2 in zip(ind, ind[1:]): if id2 - id1 > 1: raise] *)
Fixpoint check_sequential (pairs : list (Z * Z)) : result unit :=
  match pairs with
  | [] => Ok ()
  | (id1, id2) :: rest =>
      if (1 <? id2 - id1)%Z then Raise InconsistentDatasetError
      else check_sequential rest
  end.

(** [for file in files: if file.stat().st_size == 0: raise] *)
Fixpoint check_sizes (files : list File) : result unit :=
  match files with
  | [] => Ok ()
  | file :: rest =>
      if st_size file =? 0 then Raise InconsistentDatasetError
      else check_sizes rest
  end.

Definition _validate_dataset (path_to_raw_txt_data : Path) : result unit :=
  match path_to_raw_txt_data with
  | Missing => Raise FileNotFoundError
  | RegularFile => Raise NotADirectoryError
  | Directory entries =>
      let meta_files := glob (lit "_meta.json") entries in
      let raw_files := glob (lit "_raw.txt") entries in
      if negb (length meta_files =? length raw_files)%nat
      then Raise InconsistentDatasetError
      else
        raw_ids ← indices raw_files;
        let raw_ind := sorted Z.leb raw_ids in
        meta_ids ← indices meta_files;
        let meta_ind := sorted Z.leb meta_ids in
        _ ← check_sequential (zip raw_ind (tail raw_ind));
        _ ← check_sequential (zip meta_ind (tail meta_ind));
        _ ← check_sizes raw_files;
        check_sizes meta_files
  end.

(** Modelled from the spec: [get_article_id_from_filepath] and [from_raw]
    of core_utils are not part of the sources.  The ID is the integer
    that leads the file name, and the article registered under it has
    the contents of the file as its text.  Reading is taken to succeed: a
    file that cannot be opened or decoded is outside [File], so the model
    says what is registered when registering succeeds, not when it
    does. *)
Definition get_article_id_from_filepath (file : File) : result Z :=
  file_index file.

Definition from_raw (file : File) : result Article :=
  file_id ← get_article_id_from_filepath file;
  Ok {| article_id := file_id; article_text := content file;
        _conllu_sentences := [] |}.

(** The loop of [_scan_dataset] over the raw files. *)
Fixpoint scan_files (raw_files : list File) (_storage : list (Z * Article))
  : result (list (Z * Article)) :=
  match raw_files with
  | [] => Ok _storage
  | raw_file :: rest =>
      file_id ← get_article_id_from_filepath raw_file;
      article ← from_raw raw_file;
      scan_files rest (dict_set _storage file_id article)
  end.

Definition _scan_dataset (path_to_raw_txt_data : Path)
    (_storage : list (Z * Article)) : result (list (Z * Article)) :=
  scan_files (glob (lit "_raw.txt") (listing path_to_raw_txt_data))
    _storage.

(** [__init__] followed by [get_articles]: the storage of the manager. *)
Definition __init__ (path_to_raw_txt_data : Path)
  : result (list (Z * Article)) :=
  _ ← _validate_dataset path_to_raw_txt_data;
  _scan_dataset path_to_raw_txt_data [].
End Corpus.
End CorpusManager.

(** [int] on an optional sign followed by ASCII decimal digits.  What else
    [int] accepts (blanks around the number, digits outside ASCII) is
    outside this fragment. *)
Module AsciiInt.
Fixpoint digits (acc : Z) (s : str) : option Z :=
  match s with
  | [] => Some acc
  | c :: s' =>
      if (48 <=? c) && (c <=? 57)
      then digits (10 * acc + Z.of_N (c - 48))%Z s'
      else None
  end.

Definition unsigned (s : str) : option Z :=
  match s with
  | [] => None
  | _ => digits 0%Z s
  end.

Definition int (s : str) : option Z :=
  match s with
  | 45 :: s' => Z.opp <$> unsigned s'
  | 43 :: s' => unsigned s'
  | _ => unsigned s
  end.
End AsciiInt.

(** ** Running the pipeline *)

(** The calls to the writers of core_utils, in the order they are made. *)
Inductive Write : Type :=
  | to_cleaned (article : Article)
  | to_conllu (article : Article)
      (include_morphological_tags include_pymorphy_tags : bool).

(** The article a call writes for. *)
Definition written_id (w : Write) : Z :=
  match w with
  | to_cleaned article => article_id article
  | to_conllu article _ _ => article_id article
  end.

Module Run.
Section Run.
Variable U : UnicodeData.
Variable _converter : TagConverter.
Variable analyze : str -> list MystemToken.
Variable split_by_sentence : str -> list str.

Definition set_conllu_sentences (article : Article)
    (sentences : list ConlluSentence.t) : Article :=
  {| article_id := article_id article;
     article_text := article_text article;
     _conllu_sentences := sentences |}.

(** [run] over [self._corpus.get_articles().values()]: the calls made
    and how the loop ended.  An exception of [_process] ends the run
    after the calls already made. *)
Fixpoint run (articles : list Article) : list Write * result unit :=
  match articles with
  | [] => ([], Ok ())
  | article :: rest =>
      match MorphologicalAnalysisPipeline._process U _converter analyze
              split_by_sentence (article_text article) with
      | Raise e => ([], Raise e)
      | Ok sentences =>
          let article := set_conllu_sentences article sentences in
          let (writes, outcome) := run rest in
          (to_cleaned article
             :: to_conllu article false false
             :: to_conllu article true false
             :: writes, outcome)
      end
  end.
End Run.
End Run.

(** The three calls [run] makes for an annotated article. *)
Definition writes_of (article : Article) : list Write :=
  [ to_cleaned article;
    to_conllu article false false;
    to_conllu article true false ].

(** The keys of a [dict] filled by assigning to [ids] one after the other:
    each ID stands where it first occurred. *)
Definition add_key (keys : list Z) (id : Z) : list Z :=
  if decide (id ∈ keys) then keys else keys ++ [id].

Definition first_occurrences (ids : list Z) : list Z :=
  foldl add_key [] ids.

(** ** Notions used in the statements *)

Definition str_lt (a b : str) : Prop := str_ltb a b = true.

(** Where an entry of [ud_tags] comes from. *)
Definition from_mapping (self : TagConverter) (categories tags : list str)
    (category value : str) : Prop :=
  category ∈ categories /\
  exists table tag, _tag_mapping self !! category = Some table /\
                    tag ∈ tags /\ table !! tag = Some value.

(** The tokens of the analyzer that the loop keeps. *)
Definition retained (U : UnicodeData) (mystem_analysis : list MystemToken)
  : list MystemToken :=
  filter (fun token => word_regex_match U (text token) = true)
    mystem_analysis.

(** What the loop builds for one retained token. *)
Definition built (U : UnicodeData) (_converter : TagConverter)
    (sentence_counter : Z) (token : MystemToken)
    (conllu_token : ConlluToken.t) : Prop :=
  ConlluToken._text conllu_token = MorphologicalAnalysisPipeline.surface token /\
  ConlluToken.position conllu_token = sentence_counter /\
  MorphologicalAnalysisPipeline.annotate U _converter (MorphologicalAnalysisPipeline.surface token) (analysis token)
    = Ok (ConlluToken._morphological_parameters conllu_token).

(** [k]-th retained token, counting from [sentence_counter + 1]. *)
Inductive numbered (U : UnicodeData) (_converter : TagConverter)
  : Z -> list MystemToken -> list ConlluToken.t -> Prop :=
  | numbered_nil n : numbered U _converter n [] []
  | numbered_cons n token tokens conllu_token conllu_tokens :
      built U _converter (n + 1) token conllu_token ->
      numbered U _converter (n + 1) tokens conllu_tokens ->
      numbered U _converter n (token :: tokens) (conllu_token :: conllu_tokens).

(** The converter returns on the first analysis of every token of the
    list that has one. *)
Definition convertible (_converter : TagConverter)
    (mystem_analysis : list MystemToken) : Prop :=
  forall token first rest,
    token ∈ mystem_analysis -> analysis token = Some (first :: rest) ->
    (exists ud_pos,
       MystemTagConverter.convert_pos _converter (gr first) = Ok ud_pos) /\
    (exists feats,
       MystemTagConverter.convert_morphological_tags _converter (gr first)
         = Ok feats).

(** The parameters with the surface text as lemma and no features. *)
Definition plain (token_text ud_pos : str) : MorphologicalTokenDTO.t :=
  {| MorphologicalTokenDTO.lemma := token_text;
     MorphologicalTokenDTO.pos := ud_pos;
     MorphologicalTokenDTO.tags := [] |}.

(** Two neighbours of a list of IDs that are more than 1 apart. *)
Definition has_gap (ind : list Z) : Prop :=
  exists i id1 id2,
    ind !! i = Some id1 /\ ind !! S i = Some id2 /\ (id2 - id1 > 1)%Z.

Definition has_empty (files : list File) : Prop :=
  exists file, file ∈ files /\ st_size file = 0.

(** What the spec calls an inconsistent dataset, for raw and metadata
    files whose leading IDs are [raw_ids] and [meta_ids]. *)
Definition inconsistent (raw_files meta_files : list File)
    (raw_ids meta_ids : list Z) : Prop :=
  length meta_files ≠ length raw_files \/
  has_gap (sorted Z.leb raw_ids) \/
  has_gap (sorted Z.leb meta_ids) \/
  has_empty raw_files \/
  has_empty meta_files.

(** Every article is stored under its own ID. *)
Definition keyed (d : list (Z * Article)) : Prop :=
  Forall (fun entry => article_id entry.2 = entry.1) d.

(** ** Sample data *)


(** A Mystem tag string: "S,жен,од=им,ед". *)
Definition sample_gr : str :=
  lit "S," ++ [1078; 1077; 1085] ++ lit "," ++ [1086; 1076] ++ lit "="
    ++ [1080; 1084] ++ lit "," ++ [1077; 1076].

Definition double_struck_C : ConlluSentence.t :=
  {| ConlluSentence._position := 0; ConlluSentence._text := [8450];
     ConlluSentence._tokens := [] |}.

(** A toy analyzer: whatever the sentence, the tokens
    "Кошка" (analysed), " ", "2024", "жыл" (no analysis), "!" and ". ". *)
Definition sample_analyze (_ : str) : list MystemToken :=
  [ {| text := [1050; 1086; 1096; 1082; 1072];
       analysis := Some [ {| lex := [1082; 1086; 1096; 1082; 1072];
                             gr := sample_gr |} ] |};
    {| text := lit " "; analysis := None |};
    {| text := lit "2024"; analysis := None |};
    {| text := [1078; 1099; 1083]; analysis := Some [] |};
    {| text := lit "!"; analysis := None |};
    {| text := lit ". "; analysis := None |} ].

(** A toy segmentation: one sentence per line. *)
Fixpoint sample_split_from (cur : str) (s : str) : list str :=
  match s with
  | [] => match cur with [] => [] | _ => [rev cur] end
  | c :: s' =>
      if c =? 10 then rev cur :: sample_split_from [] s'
      else sample_split_from (c :: cur) s'
  end.
Definition sample_split (s : str) : list str := sample_split_from [] s.

Definition sample_text : str := lit "first line" ++ [10] ++ lit "second line".

Definition sample_sentences : list ConlluSentence.t :=
  Eval vm_compute in
    match MorphologicalAnalysisPipeline._process Fragment.data
            sample_converter sample_analyze sample_split sample_text with
    | Ok sentences => sentences
    | Raise _ => []
    end.

Definition file (file_name : string) (size : N) : File :=
  {| name := lit file_name; st_size := size; content := lit "text" |}.

(** Two empty files whose names carry no integer. *)
Definition unnumbered_dir : list File :=
  [ file "x_raw.txt" 0; file "x_meta.json" 0 ].

(** Articles 1 to 3, complete. *)
Definition complete_dir : list File :=
  [ file "2_raw.txt" 7; file "1_meta.json" 9; file "1_raw.txt" 5;
    file "3_meta.json" 9; file "2_meta.json" 9; file "3_raw.txt" 6 ].

(** Raw files 1 and 2 next to metadata files 5 and 6. *)
Definition mismatched_dir : list File :=
  [ file "1_raw.txt" 5; file "2_raw.txt" 7;
    file "5_meta.json" 9; file "6_meta.json" 9 ].

Definition sample_storage : list (Z * Article) :=
  Eval vm_compute in
    match CorpusManager.__init__ AsciiInt.int (Directory complete_dir) with
    | Ok _storage => _storage
    | Raise _ => []
    end.

(** ** The rest of the module *)

(** [string.punctuation]: the ASCII characters 33-47, 58-64, 91-96 and
    123-126. *)
Definition punctuation : str :=
  [33; 34; 35; 36; 37; 38; 39; 40; 41; 42; 43; 44; 45; 46; 47;
   58; 59; 60; 61; 62; 63; 64;
   91; 92; 93; 94; 95; 96;
   123; 124; 125; 126].

(** [s.translate(str.maketrans('', '', deletechars))]: the characters of
    [deletechars] are mapped to [None], that is deleted. *)
Fixpoint translate_delete (deletechars : str) (s : str) : str :=
  match s with
  | [] => []
  | c :: s' =>
      if existsb (N.eqb c) deletechars
      then translate_delete deletechars s'
      else c :: translate_delete deletechars s'
  end.

Module ConlluTokenText.
(** [ConlluToken.get_cleaned] *)
Definition get_cleaned (U : UnicodeData) (self : ConlluToken.t) : str :=
  translate_delete punctuation (lower U (ConlluToken._text self)).

(** [ConlluToken.get_morphological_parameters] *)
Definition get_morphological_parameters (self : ConlluToken.t)
  : MorphologicalTokenDTO.t :=
  ConlluToken._morphological_parameters self.
End ConlluTokenText.

(** The subclass overrides [_process] and [run] with bodies that hold a
    docstring only: both return [None], and [run] calls no writer. *)
Module AdvancedMorphologicalAnalysisPipeline.
Definition _process (text : str) : option (list ConlluSentence.t) := None.
Definition run (articles : list Article) : list Write := [].
End AdvancedMorphologicalAnalysisPipeline.

(** ** Notions used in the further statements *)

(** The value of the last tag of the list that is a key of the table. *)
Definition last_mapped (table : gmap str str) (extracted_tags : list str)
  : option str :=
  last (omap (fun tag => table !! tag) extracted_tags).

(** What a category contributes to [ud_tags]: the value that its table
    gives for the last tag it knows. *)
Definition contribution (self : TagConverter) (tags : list str)
    (category : str) : option str :=
  _tag_mapping self !! category ≫= fun table => last_mapped table tags.

(** The leading part of the name of a file, as [int] receives it. *)
Definition leading (file : File) : str := split_head 95 (stem (name file)).

(** The article [from_raw] builds for a raw file with the ID [file_id]. *)
Definition article_of (file_id : Z) (raw_file : File) : Article :=
  {| article_id := file_id; article_text := content raw_file;
     _conllu_sentences := [] |}.

(** The sentences [_process] builds for an article, when it returns. *)
Definition annotated_by (U : UnicodeData) (_converter : TagConverter)
    (analyze : str -> list MystemToken) (split_by_sentence : str -> list str)
    (article annotated : Article) : Prop :=
  exists sentences,
    MorphologicalAnalysisPipeline._process U _converter analyze
      split_by_sentence (article_text article) = Ok sentences /\
    annotated = Run.set_conllu_sentences article sentences.

(** A retained token of letters that has a candidate analysis. *)
Definition analysed_word (U : UnicodeData) (token : MystemToken)
    (first : MystemAnalysis) : Prop :=
  word_regex_match U (text token) = true /\
  isalpha U (MorphologicalAnalysisPipeline.surface token) = true /\
  exists rest, analysis token = Some (first :: rest).

(** The converter returns on a tag string. *)
Definition converts (_converter : TagConverter) (gram_info : str) : Prop :=
  exists ud_pos feats,
    MystemTagConverter.convert_pos _converter gram_info = Ok ud_pos /\
    MystemTagConverter.convert_morphological_tags _converter gram_info
      = Ok feats.

(** A converter whose tables are named as the class attributes name them,
    with the sample table for the POS codes. *)
Definition capitalised_converter : TagConverter :=
  {| pos := lit "POS"; case := lit "Case"; number := lit "Number";
     gender := lit "Gender"; animacy := lit "Animacy"; tense := lit "Tense";
     _tag_mapping :=
       list_to_map
         [ (lit "POS", list_to_map [ (lit "NOUN", lit "NOUN") ]);
           (lit "Case", list_to_map [ (lit "nomn", lit "Nom") ]);
           (lit "Number", list_to_map [ (lit "sing", lit "Sing") ]);
           (lit "Gender", list_to_map [ (lit "femn", lit "Fem") ]);
           (lit "Animacy", list_to_map [ (lit "anim", lit "Anim") ]) ] |}.

(** "S,жен,од=(им,ед|вин,мн)": two alternatives in parentheses. *)
Definition sample_gr_alternatives : str :=
  lit "S," ++ [1078; 1077; 1085] ++ lit "," ++ [1086; 1076] ++ lit "=("
    ++ [1080; 1084] ++ lit "," ++ [1077; 1076] ++ lit "|"
    ++ [1074; 1080; 1085] ++ lit "," ++ [1084; 1085] ++ lit ")".

(** * Crawler (lab_5_scrapper/scrapper.py) *)

(** ** Configuration *)

(** A value read by [json.load]; a float keeps its literal. *)
#[local] Unset Elimination Schemes.
Inductive json : Type :=
  | JNull
  | JBool (b : bool)
  | JInt (n : Z)
  | JFloat (literal : str)
  | JStr (s : str)
  | JList (items : list json)
  | JDict (members : list (str * json)).
#[local] Set Elimination Schemes.

(** [isinstance(v, int)]: [bool] is a subclass of [int], and [True] and
    [False] compare as 1 and 0. *)
Definition as_int (v : json) : option Z :=
  match v with
  | JInt n => Some n
  | JBool true => Some 1%Z
  | JBool false => Some 0%Z
  | _ => None
  end.

Definition is_str (v : json) : bool :=
  match v with JStr _ => true | _ => false end.
Definition is_dict (v : json) : bool :=
  match v with JDict _ => true | _ => false end.
Definition is_bool (v : json) : bool :=
  match v with JBool _ => true | _ => false end.

Inductive ConfigError : Type :=
  | IncorrectSeedURLError
  | NumberOfArticlesOutOfRangeError
  | IncorrectNumberOfArticlesError
  | IncorrectHeadersError
  | IncorrectEncodingError
  | IncorrectTimeoutError
  | IncorrectVerifyError.

(** [re.match(r'^https?://(www.)?', s)]: the optional group matches the
    empty string when it has to, so the match succeeds exactly on the
    strings that begin with "http://" or "https://". *)
Definition seed_url_match (s : str) : bool :=
  is_prefix (lit "http://") s || is_prefix (lit "https://") s.

Module Config.
(** The attributes set by [__init__] from the fields of the [ConfigDTO]. *)
Record t : Type := {
  _seed_urls : json;
  _num_articles : json;
  _headers : json;
  _encoding : json;
  _timeout : json;
  _should_verify_certificate : json;
  _headless_mode : json
}.

Section Validate.
(** The limits of core_utils.constants. *)
Variable NUM_ARTICLES_UPPER_LIMIT : Z.
Variable TIMEOUT_LOWER_LIMIT : Z.
Variable TIMEOUT_UPPER_LIMIT : Z.

(** The loop over the seed URLs; each of them is a string here. *)
Fixpoint check_seed_urls (seed_urls : list json) : option ConfigError :=
  match seed_urls with
  | [] => None
  | JStr seed_url :: rest =>
      if negb (seed_url_match seed_url) then Some IncorrectSeedURLError
      else check_seed_urls rest
  | _ :: _ => Some IncorrectSeedURLError
  end.

(** [_validate_config_content]: the exception raised, or [None] when the
    method returns. *)
Definition _validate_config_content (self : t) : option ConfigError :=
  match _seed_urls self with
  | JList seed_urls =>
      if negb (forallb is_str seed_urls) then Some IncorrectSeedURLError
      else
        match check_seed_urls seed_urls with
        | Some e => Some e
        | None =>
            match as_int (_num_articles self) with
            | None => Some IncorrectNumberOfArticlesError
            | Some num_articles =>
                if (num_articles <? 1)%Z
                then Some IncorrectNumberOfArticlesError
                else if (NUM_ARTICLES_UPPER_LIMIT <? num_articles)%Z
                then Some NumberOfArticlesOutOfRangeError
                else if negb (is_dict (_headers self))
                then Some IncorrectHeadersError
                else if negb (is_str (_encoding self))
                then Some IncorrectEncodingError
                else
                  match as_int (_timeout self) with
                  | None => Some IncorrectTimeoutError
                  | Some timeout =>
                      if (timeout <=? TIMEOUT_LOWER_LIMIT)%Z
                         || (TIMEOUT_UPPER_LIMIT <=? timeout)%Z
                      then Some IncorrectTimeoutError
                      else if negb (is_bool (_should_verify_certificate self))
                      then Some IncorrectVerifyError
                      else if negb (is_bool (_headless_mode self))
                      then Some IncorrectVerifyError
                      else None
                  end
            end
        end
  | _ => Some IncorrectSeedURLError
  end.
End Validate.
End Config.

(** ** Finding the articles *)

Module Crawler.
Section Crawler.
(** [urljoin('https://dzer.ru/', href)] and [urlparse(url).scheme]. *)
Variable urljoin : str -> str.
Variable scheme : str -> str.
(** The [href] attributes of the anchors that [find_all] selects in the
    page received for the [k]-th request, made to [seed_url]. *)
Variable anchors : nat -> str -> list (option str).
(** [config.get_num_articles()] and the seed URLs. *)
Variable num_articles : Z.
Variable seed_urls : list str.

(** [_extract_url] *)
Definition _extract_url (href : option str) : str :=
  match href with
  | Some ((_ :: _) as href) =>
      let full_url := urljoin href in
      match scheme full_url with
      | [] => lit "http://" ++ full_url
      | _ => full_url
      end
  | _ => []
  end.

(** The loop over the anchors of a page: the URLs, and whether the
    method has returned. *)
Fixpoint scan_anchors (hrefs : list (option str)) (urls : list str)
  : list str * bool :=
  match hrefs with
  | [] => (urls, false)
  | elem :: rest =>
      if (num_articles <=? Z.of_nat (length urls))%Z then (urls, true)
      else
        let article_url := _extract_url elem in
        if bool_decide (article_url = []) || bool_decide (article_url ∈ urls)
        then scan_anchors rest urls
        else scan_anchors rest (urls ++ [article_url])
  end.

(** The loop over the seed URLs; [requests] counts the requests made. *)
Fixpoint scan_seeds (seeds : list str) (requests : nat) (urls : list str)
  : list str * nat * bool :=
  match seeds with
  | [] => (urls, requests, false)
  | seed_url :: rest =>
      match scan_anchors (anchors requests seed_url) urls with
      | (urls', true) => (urls', S requests, true)
      | (urls', false) => scan_seeds rest (S requests) urls'
      end
  end.

(** [find_articles]: the [while] loop, for at most [fuel] passes over the
    seed URLs; [None] when the passes are used up before the method
    returns. *)
Fixpoint find_articles (fuel : nat) (requests : nat) (urls : list str)
  : option (list str) :=
  if (num_articles <=? Z.of_nat (length urls))%Z then Some urls
  else
    match fuel with
    | O => None
    | S fuel' =>
        match scan_seeds seed_urls requests urls with
        | (urls', _, true) => Some urls'
        | (urls', requests', false) => find_articles fuel' requests' urls'
        end
    end.
End Crawler.
End Crawler.

(** A page with five anchors: one without [href], one twice. *)
Definition sample_anchors (_ : nat) (_ : str) : list (option str) :=
  [ Some (lit "/news/1"); None; Some (lit "/news/1"); Some (lit "/news/2");
    Some (lit "/news/3") ].

Definition sample_urljoin (href : str) : str := lit "https://dzer.ru" ++ href.
Definition sample_scheme (url : str) : str := split_head 58 url.

(** A configuration in the shape of the crawler's configuration file. *)
Definition sample_config : Config.t :=
  {| Config._seed_urls := JList [JStr (lit "https://dzer.ru/")];
     Config._num_articles := JInt 5;
     Config._headers := JDict [(lit "user-agent", JStr (lit "agent"))];
     Config._encoding := JStr (lit "utf-8");
     Config._timeout := JInt 10;
     Config._should_verify_certificate := JBool true;
     Config._headless_mode := JBool false |}.

(** The configuration without seed URLs. *)
Definition without_seeds (config : Config.t) : Config.t :=
  {| Config._seed_urls := JList [];
     Config._num_articles := Config._num_articles config;
     Config._headers := Config._headers config;
     Config._encoding := Config._encoding config;
     Config._timeout := Config._timeout config;
     Config._should_verify_certificate :=
       Config._should_verify_certificate config;
     Config._headless_mode := Config._headless_mode config |}.


(** The ASCII characters for which [str.isspace] holds: 9-13 and 28-32. *)
Definition ascii_space (c : char) : bool :=
  Fragment.in_range 9 13 c || Fragment.in_range 28 32 c.

(** The sentence "A_b, c". *)
Definition underscored : ConlluSentence.t :=
  {| ConlluSentence._position := 0; ConlluSentence._text := lit "A_b, c";
     ConlluSentence._tokens := [] |}.


(** * Properties *)

(** ** The result monad *)

Lemma bind_Ok {A B} (r : result A) (k : A -> result B) (b : B) :
  r ≫= k = Ok b -> exists a, r = Ok a /\ k a = Ok b.
Proof. destruct r as [a|e]; simpl; [eauto | discriminate]. Qed.

Lemma bind_Ok_l {A B} (a : A) (k : A -> result B) : Ok a ≫= k = k a.
Proof. reflexivity. Qed.

Lemma bind_Raise_l {A B} (e : exn) (k : A -> result B) :
  Raise e ≫= k = Raise e.
Proof. reflexivity. Qed.

Lemma getitem_Ok {V} (d : gmap str V) k v :
  getitem d k = Ok v <-> d !! k = Some v.
Proof.
  unfold getitem. destruct (d !! k); split; intros H; congruence.
Qed.

(** ** Order on strings *)

Lemma str_eqb_eq a b : str_eqb a b = true <-> a = b.
Proof. unfold str_eqb. apply bool_decide_eq_true. Qed.

Lemma str_eqb_refl a : str_eqb a a = true.
Proof. by apply str_eqb_eq. Qed.

Lemma str_ltb_irrefl a : str_ltb a a = false.
Proof.
  induction a as [|x a IH]; simpl; [done|].
  rewrite N.ltb_irrefl, N.eqb_refl. simpl. exact IH.
Qed.

Lemma str_ltb_trans a b c :
  str_ltb a b = true -> str_ltb b c = true -> str_ltb a c = true.
Proof.
  revert b c. induction a as [|x a IH]; intros [|y b] [|z c]; simpl; try done.
  rewrite !orb_true_iff, !andb_true_iff, !N.ltb_lt, !N.eqb_eq.
  intros [Hxy|[-> Hab]] [Hyz|[-> Hbc]].
  - left. lia.
  - by left.
  - by left.
  - right. split; [done|]. by apply (IH b).
Qed.

Lemma str_trichotomy a b :
  str_ltb a b = true \/ a = b \/ str_ltb b a = true.
Proof.
  revert b. induction a as [|x a IH]; intros [|y b]; simpl; auto.
  destruct (N.lt_total x y) as [H|[->|H]].
  - left. apply orb_true_iff. left. by apply N.ltb_lt.
  - rewrite N.ltb_irrefl, N.eqb_refl. simpl.
    destruct (IH b) as [H|[->|H]]; auto.
  - right. right. apply orb_true_iff. left. by apply N.ltb_lt.
Qed.

Lemma item_leb_total a b : item_leb a b = false -> item_leb b a = true.
Proof.
  destruct a as [ka va], b as [kb vb]. unfold item_leb, str_leb. simpl.
  intros H. apply orb_false_iff in H as [Hlt H].
  destruct (str_trichotomy ka kb) as [Hk|[->|Hk]].
  - congruence.
  - rewrite str_eqb_refl in *. simpl in *.
    apply orb_false_iff in H as [Hne Hv].
    destruct (str_trichotomy va vb) as [Hw|[->|Hw]].
    + congruence.
    + by rewrite str_eqb_refl in Hne.
    + rewrite Hw. by rewrite !orb_true_r.
  - by rewrite Hk.
Qed.

(** ** [sorted] sorts *)

Section SortedFacts.
Context {A : Type} (leb : A -> A -> bool).
Hypothesis leb_total : forall a b, leb a b = false -> leb b a = true.

Lemma insert_sorted_perm x l : Permutation (x :: l) (insert_sorted leb x l).
Proof.
  induction l as [|y l IH]; simpl; [done|].
  destruct (leb x y); [done|].
  rewrite perm_swap. by constructor.
Qed.

Lemma sorted_perm l : Permutation l (sorted leb l).
Proof.
  induction l as [|x l IH]; simpl; [done|].
  rewrite <- insert_sorted_perm. by constructor.
Qed.

Lemma insert_sorted_Sorted x l :
  Sorted (fun a b => leb a b = true) l ->
  Sorted (fun a b => leb a b = true) (insert_sorted leb x l).
Proof.
  induction 1 as [|y l Hs IH Hhd]; simpl.
  - repeat constructor.
  - destruct (leb x y) eqn:E.
    + constructor; [by constructor | by constructor].
    + constructor; [exact IH|].
      destruct Hhd as [|z l Hyz]; simpl.
      * constructor. by apply leb_total.
      * destruct (leb x z); constructor; [by apply leb_total | done].
Qed.

Lemma sorted_Sorted l : Sorted (fun a b => leb a b = true) (sorted leb l).
Proof.
  induction l as [|x l IH]; simpl; [constructor|].
  by apply insert_sorted_Sorted.
Qed.
End SortedFacts.

(** Items with pairwise distinct categories, once sorted as tuples, have
    strictly increasing categories. *)
Lemma sorted_items_categories (items : list (str * str)) :
  NoDup items.*1 ->
  StronglySorted str_lt (sorted item_leb items).*1.
Proof.
  intros Hnd.
  assert (Hnd' : NoDup (sorted item_leb items).*1).
  { by rewrite <- (sorted_perm item_leb items). }
  pose proof (sorted_Sorted item_leb item_leb_total items) as Hs.
  apply Sorted_StronglySorted.
  { intros a b c. apply str_ltb_trans. }
  induction Hs as [|[k v] l Hs IH Hhd]; simpl; [constructor|].
  apply NoDup_cons in Hnd' as [Hnotin Hnd'].
  constructor; [by apply IH|].
  destruct Hhd as [|[k' v'] l Hle]; simpl; constructor.
  unfold item_leb in Hle. simpl in Hle.
  apply orb_true_iff in Hle as [Hlt|Heq]; [exact Hlt|].
  apply andb_true_iff in Heq as [Heq _]. apply str_eqb_eq in Heq.
  subst k'. exfalso. apply Hnotin. simpl. by left.
Qed.

(** ** Mystem converter *)

Module MystemFacts.
Import MystemTagConverter.

Lemma literal_getitem_Ok {V} (d : list (str * V)) k v :
  literal_getitem d k = Ok v -> (k, v) ∈ d.
Proof.
  induction d as [|[k' v'] d IH]; simpl; [discriminate|].
  destruct (str_eqb k' k) eqn:E.
  - apply str_eqb_eq in E. intros [= ->]. subst. by left.
  - intros H. right. by apply IH.
Qed.

Lemma literal_getitem_absent {V} (d : list (str * V)) k :
  k ∉ d.*1 -> literal_getitem d k = Raise KeyError.
Proof.
  induction d as [|[k' v'] d IH]; simpl; [done|].
  intros Hk. destruct (str_eqb k' k) eqn:E.
  - apply str_eqb_eq in E. subst. exfalso. apply Hk. by left.
  - apply IH. intros Hin. apply Hk. by right.
Qed.

Lemma collect_tags_inv self category tags ud ud' (P : str -> str -> Prop) :
  collect_tags self category tags ud = Ok ud' ->
  (forall c v, ud !! c = Some v -> P c v) ->
  (forall table tag v, _tag_mapping self !! category = Some table ->
     tag ∈ tags -> table !! tag = Some v -> P category v) ->
  forall c v, ud' !! c = Some v -> P c v.
Proof.
  revert ud. induction tags as [|tag tags IH]; simpl; intros ud H Hud Hnew.
  - by intros c v; injection H as <-; apply Hud.
  - apply bind_Ok in H as (table & Ht & H). apply getitem_Ok in Ht.
    destruct (table !! tag) as [value|] eqn:E.
    + eapply IH; [exact H| |].
      * intros c v. rewrite lookup_insert. case_decide as Hc.
        -- intros [= <-]. subst c. eapply Hnew; [exact Ht| |exact E].
           by left.
        -- apply Hud.
      * intros table' tag' v' Ht' Hin. apply (Hnew table' tag' v' Ht').
        by right.
    + eapply IH; [exact H|exact Hud|].
      intros table' tag' v' Ht' Hin. apply (Hnew table' tag' v' Ht').
      by right.
Qed.

Lemma collect_categories_inv self categories tags ud ud' :
  collect_categories self categories tags ud = Ok ud' ->
  forall c v, ud' !! c = Some v ->
    ud !! c = Some v \/ from_mapping self categories tags c v.
Proof.
  revert ud. induction categories as [|cat cats IH]; simpl; intros ud H c v Hc.
  - injection H as <-. by left.
  - apply bind_Ok in H as (ud1 & H1 & H).
    destruct (IH _ H c v Hc) as [Hin|(Hcat & table & tag & ?)].
    + clear Hc. revert c v Hin.
      apply (collect_tags_inv self cat tags ud ud1
               (fun c v => ud !! c = Some v \/
                           from_mapping self (cat :: cats) tags c v) H1).
      * by left.
      * intros table tag v Ht Hin Hv. right. split; [by left|].
        by exists table, tag.
    + right. split; [by right|]. by exists table, tag.
Qed.

(** The shape of every feature string the converter returns. *)
Lemma convert_morphological_tags_shape self tags feats :
  convert_morphological_tags self tags = Ok feats ->
  exists ud_pos categories items,
    convert_pos self tags = Ok ud_pos /\
    (ud_pos, categories) ∈ pos_specific_categories self /\
    feats = join (lit "|") (map fmt_feature items) /\
    StronglySorted str_lt items.*1 /\
    Forall (fun item => from_mapping self categories (extract_tags tags)
                          item.1 item.2) items.
Proof.
  unfold convert_morphological_tags. intros H.
  apply bind_Ok in H as (ud_pos & Hpos & H).
  apply bind_Ok in H as (categories & Hcats & H).
  apply bind_Ok in H as (ud & Hud & H). injection H as <-.
  exists ud_pos, categories, (sorted item_leb (map_to_list ud)).
  split; [done|]. split; [by apply literal_getitem_Ok|].
  split; [done|]. split.
  - apply sorted_items_categories. apply NoDup_fst_map_to_list.
  - apply Forall_forall. intros [c v] Hin. simpl.
    rewrite <- (sorted_perm item_leb _) in Hin.
    apply elem_of_map_to_list in Hin.
    destruct (collect_categories_inv _ _ _ _ _ Hud c v Hin) as [He|Hm];
      [by rewrite lookup_empty in He | exact Hm].
Qed.
End MystemFacts.

(** ** OpenCorpora converter *)

Module OpenCorporaFacts.
Import OpenCorporaTagConverter.

Lemma feature_of_Some self entry feature :
  feature_of self entry = Some feature ->
  exists mapped_value, feature = fmt_feature (entry.1, mapped_value).
Proof.
  unfold feature_of. destruct entry as [category [[|c value]|]]; simpl; try done.
  case_match; [|done].
  intros [= <-]. eauto.
Qed.

(** The features appended to [tags_list] keep the order of the entries. *)
Lemma omap_feature_of self (entries : list (str * option str)) :
  exists items,
    omap (feature_of self) entries = map fmt_feature items /\
    sublist items.*1 entries.*1.
Proof.
  induction entries as [|entry entries (items & Heq & Hsub)].
  - by exists [].
  - cbn [omap list_omap]. fold (omap (feature_of self) entries).
    rewrite Heq. destruct (feature_of self entry) as [feature|] eqn:E.
    + apply feature_of_Some in E as (v & ->).
      exists ((entry.1, v) :: items).
      split; [done|]. by apply sublist_skip.
    + exists items. split; [done|]. by apply sublist_cons.
Qed.
End OpenCorporaFacts.

(** C1. When the uppercase code of a Mystem tag string is not a key of the
    POS table, [convert_pos] returns the empty string, and
    [convert_morphological_tags] raises [KeyError] on the same tag string.
    It raises as well whenever the converted POS is none of NOUN, VERB,
    ADJ, NUM, PRON. *)
Theorem convert_unknown_pos (self : TagConverter) (tags code : str)
    (table : gmap str str) :
  re_search upper_AZ tags = Some code ->
  _tag_mapping self !! lit "POS" = Some table ->
  table !! code = None ->
  MystemTagConverter.convert_pos self tags = Ok [] /\
  MystemTagConverter.convert_morphological_tags self tags = Raise KeyError /\
  (forall tags' ud_pos,
     MystemTagConverter.convert_pos self tags' = Ok ud_pos ->
     ud_pos ∉ [lit "NOUN"; lit "VERB"; lit "ADJ"; lit "NUM"; lit "PRON"] ->
     MystemTagConverter.convert_morphological_tags self tags'
       = Raise KeyError).
Proof.
  intros Hcode Htable Hnone.
  assert (Hpos : MystemTagConverter.convert_pos self tags = Ok []).
  { unfold MystemTagConverter.convert_pos, getitem.
    rewrite Hcode, Htable. simpl. by rewrite Hnone. }
  assert (Hgen : forall tags' ud_pos,
     MystemTagConverter.convert_pos self tags' = Ok ud_pos ->
     ud_pos ∉ [lit "NOUN"; lit "VERB"; lit "ADJ"; lit "NUM"; lit "PRON"] ->
     MystemTagConverter.convert_morphological_tags self tags'
       = Raise KeyError).
  { intros tags' ud_pos Hp Hnot.
    unfold MystemTagConverter.convert_morphological_tags.
    rewrite Hp, bind_Ok_l.
    by rewrite (MystemFacts.literal_getitem_absent
                  (MystemTagConverter.pos_specific_categories self)
                  ud_pos Hnot). }
  split; [done|]. split; [|done].
  apply (Hgen tags [] Hpos).
  rewrite !not_elem_of_cons. repeat split; try discriminate.
  apply not_elem_of_nil.
Qed.

(** "PART=" under the sample table, which has no entry for PART. *)
Lemma convert_unknown_pos_witness :
  MystemTagConverter.convert_pos sample_converter (lit "PART=") = Ok [] /\
  MystemTagConverter.convert_morphological_tags sample_converter (lit "PART=")
    = Raise KeyError /\
  (forall tags' ud_pos,
     MystemTagConverter.convert_pos sample_converter tags' = Ok ud_pos ->
     ud_pos ∉ [lit "NOUN"; lit "VERB"; lit "ADJ"; lit "NUM"; lit "PRON"] ->
     MystemTagConverter.convert_morphological_tags sample_converter tags'
       = Raise KeyError).
Proof.
  apply (convert_unknown_pos sample_converter (lit "PART=") (lit "PART")
           (list_to_map [ (lit "S", lit "NOUN"); (lit "V", lit "VERB");
                          (lit "A", lit "ADJ"); (lit "ADV", lit "ADV") ])).
  - reflexivity.
  - vm_compute. reflexivity.
  - vm_compute. reflexivity.
Defined.

(** ** Serialization *)

(** C3. In every sentence block the two variants have the same two
    comment lines and one line of ten tab-separated columns per token; the
    columns of the bare variant are those of the tagged variant with the
    sixth replaced by "_", and the sixth column of the tagged variant is
    the feature string of the token when it is not empty and "_"
    otherwise. *)
Theorem bare_and_tagged_columns (sentence : ConlluSentence.t) :
  (forall include_morphological_tags,
     ConlluSentence.get_conllu_text sentence include_morphological_tags
     = ConlluSentence.header sentence
         ++ join [10]
              (map (fun token =>
                      join [9]
                        (ConlluToken.columns token include_morphological_tags))
                 (ConlluSentence._tokens sentence))
         ++ [10]) /\
  Forall (fun token =>
            let features :=
              MorphologicalTokenDTO.tags
                (ConlluToken._morphological_parameters token) in
            length (ConlluToken.columns token true) = 10%nat /\
            ConlluToken.columns token false
              = <[5%nat := lit "_"]> (ConlluToken.columns token true) /\
            ConlluToken.columns token false !! 5%nat = Some (lit "_") /\
            ConlluToken.columns token true !! 5%nat
              = Some (match features with [] => lit "_" | _ => features end))
         (ConlluSentence._tokens sentence).
Proof.
  split; [reflexivity|].
  apply Forall_forall. intros token _.
  unfold ConlluToken.columns.
  destruct (MorphologicalTokenDTO.tags
              (ConlluToken._morphological_parameters token)); done.
Qed.

(** ** Cleaned text *)

Lemma sub_from_nil (cls : char -> bool) (in_run : bool) (s : str) :
  sub_from cls [] in_run s = filter (fun c => cls c = false) s.
Proof.
  revert in_run. induction s as [|c s IH]; intros in_run; simpl; [done|].
  destruct (cls c) eqn:E.
  - rewrite filter_cons_False by congruence.
    destruct in_run; simpl; apply IH.
  - rewrite filter_cons_True by done. f_equal. apply IH.
Qed.

(** C9 as stated fails on the sentence "ℂ" (U+2102): it is its own
    cleaned form, and U+2102 is an uppercase letter. *)
Lemma cleaned_sentence_keeps_capital :
  ~ Forall (fun c => is_word Fragment.data c = true
                     /\ is_upper Fragment.data c = false)
      (ConlluSentence.get_cleaned_sentence Fragment.data double_struck_C).
Proof.
  intros H. apply Forall_cons in H as [[_ H] _]. discriminate H.
Qed.


(** C9 as stated fails on the sentence "A_b, c" as well: its cleaned form
    is "a_bc", and the underscore, a word character, is one of the
    punctuation characters. *)
Lemma cleaned_sentence_keeps_underscore :
  ConlluSentence.get_cleaned_sentence Fragment.data underscored = lit "a_bc" /\
  95 ∈ punctuation /\
  is_word Fragment.data 95 = true.
Proof.
  split; [reflexivity|]. split; [|reflexivity].
  unfold punctuation. repeat ((by left) || right).
Qed.

(** C9, amended. The cleaned form of a sentence is its lowercased text
    without the characters that [\w] does not match, in the same order.
    Every character of it is a word character and a character of the
    lowercased text; as [\w] matches no whitespace and no punctuation
    character but the underscore, the cleaned form holds no whitespace and
    no punctuation other than underscores. *)
Theorem cleaned_sentence_word_chars (U : UnicodeData)
    (is_space : char -> bool) (sentence : ConlluSentence.t) :
  (forall c, is_space c = true -> is_word U c = false) ->
  (forall c, c ∈ punctuation -> c ≠ 95 -> is_word U c = false) ->
  let cleaned := ConlluSentence.get_cleaned_sentence U sentence in
  let lowered := lower U (ConlluSentence._text sentence) in
  cleaned = filter (fun c => is_word U c = true) lowered /\
  Forall (fun c => is_word U c = true) cleaned /\
  Forall (fun c => is_space c = false) cleaned /\
  Forall (fun c => c ∈ punctuation -> c = 95) cleaned /\
  sublist cleaned lowered.
Proof.
  intros Hspace Hpunct cleaned lowered.
  assert (Heq : cleaned = filter (fun c => is_word U c = true) lowered).
  { unfold cleaned, ConlluSentence.get_cleaned_sentence, re_sub.
    rewrite sub_from_nil. apply list_filter_iff. intros c.
    unfold non_word. by rewrite negb_false_iff. }
  assert (Hword : Forall (fun c => is_word U c = true) cleaned).
  { rewrite Heq. apply Forall_forall. intros c Hc.
    by apply list_elem_of_filter in Hc as [? _]. }
  split; [exact Heq|]. split; [exact Hword|]. split; [|split].
  - eapply Forall_impl; [exact Hword|]. simpl. intros c Hc.
    destruct (is_space c) eqn:Es; [|done].
    apply Hspace in Es. congruence.
  - eapply Forall_impl; [exact Hword|]. simpl. intros c Hc Hin.
    destruct (decide (c = 95)) as [->|Hne]; [done|].
    pose proof (Hpunct c Hin Hne). congruence.
  - rewrite Heq. apply sublist_filter.
Qed.

(** [\w] of the fragment matches no ASCII whitespace and no punctuation
    character but the underscore. *)
Lemma fragment_space_not_word (c : char) :
  ascii_space c = true -> is_word Fragment.data c = false.
Proof.
  change (is_word Fragment.data c) with (Fragment.word c).
  unfold ascii_space, Fragment.word, Fragment.alpha, Fragment.digit,
    Fragment.in_range.
  rewrite !orb_true_iff, !andb_true_iff, !N.leb_le.
  intros H. rewrite !orb_false_iff, !andb_false_iff, !N.leb_gt, !N.eqb_neq.
  lia.
Qed.

Lemma fragment_punctuation_not_word (c : char) :
  c ∈ punctuation -> c ≠ 95 -> is_word Fragment.data c = false.
Proof.
  unfold punctuation. intros Hin Hne.
  repeat (apply elem_of_cons in Hin as [->|Hin]; [by vm_compute|]).
  by apply elem_of_nil in Hin.
Qed.

Lemma cleaned_sentence_word_chars_witness :
  let cleaned :=
    ConlluSentence.get_cleaned_sentence Fragment.data underscored in
  let lowered := lower Fragment.data (ConlluSentence._text underscored) in
  cleaned = filter (fun c => is_word Fragment.data c = true) lowered /\
  Forall (fun c => is_word Fragment.data c = true) cleaned /\
  Forall (fun c => ascii_space c = false) cleaned /\
  Forall (fun c => c ∈ punctuation -> c = 95) cleaned /\
  sublist cleaned lowered.
Proof.
  apply (cleaned_sentence_word_chars Fragment.data ascii_space underscored).
  - exact fragment_space_not_word.
  - exact fragment_punctuation_not_word.
Defined.

(** ** The pipeline *)

Module PipelineFacts.
Section Facts.
Import MorphologicalAnalysisPipeline.
Variable U : UnicodeData.
Variable _converter : TagConverter.
Variable analyze : str -> list MystemToken.
Variable split_by_sentence : str -> list str.

Lemma process_tokens_numbered mystem_analysis n conllu_tokens :
  process_tokens U _converter mystem_analysis n = Ok conllu_tokens ->
  numbered U _converter n (retained U mystem_analysis) conllu_tokens.
Proof.
  revert n conllu_tokens.
  induction mystem_analysis as [|token rest IH]; simpl; intros n out H.
  - injection H as <-. constructor.
  - unfold retained. destruct (word_regex_match U (text token)) eqn:E; simpl in H.
    + rewrite filter_cons_True by done.
      apply bind_Ok in H as (parameters & Hann & H).
      apply bind_Ok in H as (out' & Hrest & H). injection H as <-.
      constructor; [|by apply IH].
      by repeat split.
    + rewrite filter_cons_False by congruence. by apply IH.
Qed.

Lemma numbered_positions n tokens conllu_tokens :
  numbered U _converter n tokens conllu_tokens ->
  length conllu_tokens = length tokens /\
  map ConlluToken.position conllu_tokens
    = map (fun i => (n + Z.of_nat i)%Z) (seq 1 (length conllu_tokens)).
Proof.
  induction 1 as [|n token tokens ct cts (_ & Hpos & _) _ [IHl IHp]]; simpl;
    [done|].
  split; [by rewrite IHl|].
  rewrite Hpos, IHp.
  rewrite <- (seq_shift (length cts) 1), map_map.
  f_equal. apply map_ext. intros i. lia.
Qed.

Lemma numbered_Forall2 n tokens conllu_tokens :
  numbered U _converter n tokens conllu_tokens ->
  Forall2 (fun token conllu_token =>
             exists k, built U _converter k token conllu_token) tokens conllu_tokens.
Proof. induction 1; constructor; eauto. Qed.

(** The sentences built for the pieces of the text, in order. *)
Lemma process_sentences_spec sentences idx out :
  process_sentences U _converter analyze sentences idx = Ok out ->
  Forall2 (fun sentence sentence_obj =>
             ConlluSentence._text sentence_obj = sentence /\
             numbered U _converter 0 (retained U (analyze sentence))
               (ConlluSentence._tokens sentence_obj))
    sentences out.
Proof.
  revert idx out. induction sentences as [|sentence rest IH]; simpl;
    intros idx out H.
  - injection H as <-. constructor.
  - apply bind_Ok in H as (conllu_tokens & Htok & H).
    apply bind_Ok in H as (out' & Hrest & H). injection H as <-.
    constructor; [|by eapply IH].
    split; [done|]. by apply process_tokens_numbered.
Qed.

Lemma isalpha_not_isdigit s : isalpha U s = true -> isdigit U s = false.
Proof.
  destruct s as [|c s]; [done|]. simpl.
  intros H. apply andb_true_iff in H as [H _].
  by rewrite (alpha_not_digit U c H).
Qed.

Lemma last_of_endswith (s : str) (a b : char) :
  endswith s [a; b] = true -> b ∈ s.
Proof.
  unfold endswith. simpl. intros H.
  destruct (rev s) as [|x r] eqn:E; [done|].
  apply andb_true_iff in H as [H _]. apply N.eqb_eq in H. subst x.
  apply list_elem_of_In, in_rev. rewrite E. by left.
Qed.

Lemma forallb_elem (f : char -> bool) (s : str) c :
  forallb f s = true -> c ∈ s -> f c = true.
Proof.
  intros H Hin. apply forallb_forall with (x := c) in H; [done|].
  by apply list_elem_of_In.
Qed.

(** Letters only or digits only: line 297 leaves the text as it is. *)
Lemma surface_unchanged token :
  isalpha U (text token) = true \/ isdigit U (text token) = true ->
  surface token = text token.
Proof.
  intros H. unfold surface.
  destruct (endswith (text token) (lit ". ")) eqn:E; [|done].
  apply last_of_endswith in E. exfalso.
  destruct (text token) as [|c s] eqn:Et; [by apply elem_of_nil in E|].
  destruct H as [H|H]; simpl in H.
  - pose proof (forallb_elem (is_alpha U) (c :: s) 32 H E) as H32.
    by rewrite space_not_alpha in H32.
  - pose proof (forallb_elem (is_digit U) (c :: s) 32 H E) as H32.
    by rewrite space_not_digit in H32.
Qed.

Lemma process_tokens_returns mystem_analysis n :
  convertible _converter mystem_analysis ->
  exists conllu_tokens,
    process_tokens U _converter mystem_analysis n = Ok conllu_tokens.
Proof.
  revert n. induction mystem_analysis as [|token rest IH]; intros n Hc; simpl.
  - eauto.
  - assert (Hrest : convertible _converter rest).
    { intros t f r Hin. apply Hc. by right. }
    destruct (word_regex_match U (text token)); simpl; [|by apply IH].
    assert (Hann : exists parameters,
      annotate U _converter (surface token) (analysis token) = Ok parameters).
    { unfold annotate. destruct (isalpha U (surface token)).
      - destruct (analysis token) as [[|first others]|] eqn:Ea; eauto.
        destruct (Hc token first others (list_elem_of_here _ _) Ea)
          as [[ud_pos ->] [feats ->]]. eauto.
      - destruct (isdigit U (surface token)); eauto. }
    destruct Hann as [p ->].
    destruct (IH (n + 1)%Z Hrest) as [out ->]. rewrite !bind_Ok_l. eauto.
Qed.

(** [_process] returns when the converter returns on what the analyzer
    finds in each sentence. *)
Lemma _process_returns raw_text :
  (forall sentence, sentence ∈ split_by_sentence raw_text ->
     convertible _converter (analyze sentence)) ->
  exists sentences,
    _process U _converter analyze split_by_sentence raw_text = Ok sentences.
Proof.
  unfold _process. generalize 0%Z.
  induction (split_by_sentence raw_text) as [|sentence rest IH];
    intros idx Hc; simpl.
  - eauto.
  - destruct (process_tokens_returns (analyze sentence) 0) as [out ->].
    { apply Hc. by left. }
    destruct (IH (idx + 1)%Z) as [out' ->].
    { intros s Hin. apply Hc. by right. }
    rewrite !bind_Ok_l. eauto.
Qed.
End Facts.
End PipelineFacts.

(** C2. In every sentence that [_process] produces, the positions of the
    tokens are 1, 2, ..., k, where k is the number of tokens of the
    analyzer that were retained for that sentence. *)
Theorem positions_contiguous (U : UnicodeData) (_converter : TagConverter)
    (analyze : str -> list MystemToken) (split_by_sentence : str -> list str)
    (text : str) (sentences : list ConlluSentence.t) :
  MorphologicalAnalysisPipeline._process U _converter analyze
    split_by_sentence text = Ok sentences ->
  Forall2 (fun sentence sentence_obj =>
             let tokens := ConlluSentence._tokens sentence_obj in
             let k := length (retained U (analyze sentence)) in
             length tokens = k /\
             map ConlluToken.position tokens = map Z.of_nat (seq 1 k))
    (split_by_sentence text) sentences.
Proof.
  intros H. apply PipelineFacts.process_sentences_spec in H.
  eapply Forall2_impl; [exact H|]. simpl.
  intros sentence sentence_obj [_ Hnum].
  apply PipelineFacts.numbered_positions in Hnum as [Hlen Hpos].
  split; [done|]. rewrite Hpos, Hlen. apply map_ext. intros i. lia.
Qed.

Lemma positions_contiguous_witness :
  Forall2 (fun sentence sentence_obj =>
             let tokens := ConlluSentence._tokens sentence_obj in
             let k := length (retained Fragment.data
                                (sample_analyze sentence)) in
             length tokens = k /\
             map ConlluToken.position tokens = map Z.of_nat (seq 1 k))
    (sample_split sample_text) sample_sentences.
Proof.
  apply (positions_contiguous Fragment.data sample_converter sample_analyze
           sample_split sample_text sample_sentences).
  vm_compute. reflexivity.
Defined.

(** C7. Every retained token keeps its surface text (the text of the
    analyzer token after line 297).  A token of digits only has the lemma
    equal to its text, POS NUM and no features, whatever its analysis; a
    token of letters only with no candidate analysis has its text, X and
    no features; a retained token that is neither has its surface text,
    PUNCT and no features. *)
Theorem token_classes (U : UnicodeData) (_converter : TagConverter)
    (analyze : str -> list MystemToken) (split_by_sentence : str -> list str)
    (raw_text : str) (sentences : list ConlluSentence.t) :
  MorphologicalAnalysisPipeline._process U _converter analyze
    split_by_sentence raw_text = Ok sentences ->
  Forall2 (fun sentence sentence_obj =>
    Forall2 (fun token conllu_token =>
      let surface := MorphologicalAnalysisPipeline.surface token in
      let parameters := ConlluToken._morphological_parameters conllu_token in
      ConlluToken._text conllu_token = surface /\
      (isdigit U (text token) = true ->
         surface = text token /\
         parameters = plain (text token) (lit "NUM")) /\
      (isalpha U (text token) = true ->
         analysis token = None \/ analysis token = Some [] ->
         surface = text token /\
         parameters = plain (text token) (lit "X")) /\
      (isalpha U surface = false -> isdigit U surface = false ->
         parameters = plain surface (lit "PUNCT")))
      (retained U (analyze sentence))
      (ConlluSentence._tokens sentence_obj))
    (split_by_sentence raw_text) sentences.
Proof.
  intros H. apply PipelineFacts.process_sentences_spec in H.
  eapply Forall2_impl; [exact H|]. simpl.
  intros sentence sentence_obj [_ Hnum].
  apply PipelineFacts.numbered_Forall2 in Hnum.
  eapply Forall2_impl; [exact Hnum|]. simpl.
  intros token conllu_token (k & Htext & _ & Hann).
  unfold MorphologicalAnalysisPipeline.annotate in Hann.
  split; [exact Htext|]. split; [|split].
  - intros Hd.
    pose proof (PipelineFacts.surface_unchanged U token (or_intror Hd)) as Hs.
    rewrite Hs in *. split; [done|].
    destruct (isalpha U (text token)) eqn:Ea.
    + apply PipelineFacts.isalpha_not_isdigit in Ea. congruence.
    + rewrite Hd in Hann. by injection Hann as <-.
  - intros Ha Hnone.
    pose proof (PipelineFacts.surface_unchanged U token (or_introl Ha)) as Hs.
    rewrite Hs in *. split; [done|]. rewrite Ha in Hann.
    destruct Hnone as [Hn|Hn]; rewrite Hn in Hann; by injection Hann as <-.
  - intros Ha Hd. rewrite Ha, Hd in Hann. by injection Hann as <-.
Qed.

Lemma token_classes_witness :
  Forall2 (fun sentence sentence_obj =>
    Forall2 (fun token conllu_token =>
      let surface := MorphologicalAnalysisPipeline.surface token in
      let parameters := ConlluToken._morphological_parameters conllu_token in
      ConlluToken._text conllu_token = surface /\
      (isdigit Fragment.data (text token) = true ->
         surface = text token /\
         parameters = plain (text token) (lit "NUM")) /\
      (isalpha Fragment.data (text token) = true ->
         analysis token = None \/ analysis token = Some [] ->
         surface = text token /\
         parameters = plain (text token) (lit "X")) /\
      (isalpha Fragment.data surface = false ->
       isdigit Fragment.data surface = false ->
         parameters = plain surface (lit "PUNCT")))
      (retained Fragment.data (sample_analyze sentence))
      (ConlluSentence._tokens sentence_obj))
    (sample_split sample_text) sample_sentences.
Proof.
  apply (token_classes Fragment.data sample_converter sample_analyze
           sample_split sample_text sample_sentences).
  vm_compute. reflexivity.
Defined.

(** ** The corpus manager *)

Module CorpusFacts.
Section Facts.
Import CorpusManager.
Variable int : str -> option Z.

Lemma check_sequential_cases pairs :
  (check_sequential pairs = Ok () /\
     Forall (fun p => (p.2 - p.1 <= 1)%Z) pairs) \/
  (check_sequential pairs = Raise InconsistentDatasetError /\
     Exists (fun p => (p.2 - p.1 > 1)%Z) pairs).
Proof.
  induction pairs as [|[id1 id2] pairs IH]; simpl.
  - left. by split.
  - destruct (1 <? id2 - id1)%Z eqn:E.
    + right. split; [done|]. left. simpl. lia.
    + destruct IH as [[-> IH]|[-> IH]].
      * left. split; [done|]. constructor; [simpl; lia|done].
      * right. split; [done|]. by right.
Qed.

Lemma zip_tail_lookup (ind : list Z) (p : Z * Z) :
  p ∈ zip ind (tail ind) <->
  exists i, ind !! i = Some p.1 /\ ind !! S i = Some p.2.
Proof.
  revert p. induction ind as [|a ind IH]; intros [x y]; simpl.
  - split; [by intros ?%elem_of_nil | by intros (i & ? & _)].
  - destruct ind as [|b ind]; simpl.
    + split; [by intros ?%elem_of_nil|].
      intros ([|i] & _ & H); simpl in H; done.
    + rewrite elem_of_cons. split.
      * intros [[= -> ->]|H]; [by exists 0%nat|].
        apply IH in H as (i & H1 & H2). by exists (S i).
      * intros ([|i] & H1 & H2); simpl in *.
        -- left. congruence.
        -- right. apply IH. by exists i.
Qed.

Lemma check_sequential_gap ind :
  (check_sequential (zip ind (tail ind)) = Ok () /\ ~ has_gap ind) \/
  (check_sequential (zip ind (tail ind)) = Raise InconsistentDatasetError
     /\ has_gap ind).
Proof.
  destruct (check_sequential_cases (zip ind (tail ind))) as [[-> H]|[-> H]].
  - left. split; [done|]. intros (i & id1 & id2 & H1 & H2 & Hgap).
    rewrite Forall_forall in H.
    assert (Hin : (id1, id2) ∈ zip ind (tail ind)).
    { apply zip_tail_lookup. by exists i. }
    specialize (H _ Hin). simpl in H. lia.
  - right. split; [done|]. apply Exists_exists in H as ([x y] & Hin & Hgap).
    apply zip_tail_lookup in Hin as (i & H1 & H2). by exists i, x, y.
Qed.

Lemma check_sizes_cases files :
  (check_sizes files = Ok () /\ ~ has_empty files) \/
  (check_sizes files = Raise InconsistentDatasetError /\ has_empty files).
Proof.
  induction files as [|file files IH]; simpl.
  - left. split; [done|]. by intros (f & ?%elem_of_nil & _).
  - destruct (st_size file =? 0) eqn:E.
    + right. split; [done|]. exists file. split; [by left|].
      by apply N.eqb_eq.
    + apply N.eqb_neq in E. destruct IH as [[-> IH]|[-> IH]].
      * left. split; [done|]. intros (f & Hin & Hz).
        apply elem_of_cons in Hin as [->|Hin]; [done|].
        apply IH. by exists f.
      * right. split; [done|]. destruct IH as (f & Hin & Hz).
        exists f. split; [by right|done].
Qed.

Lemma has_empty_app files1 files2 :
  has_empty (files1 ++ files2) <-> has_empty files1 \/ has_empty files2.
Proof.
  unfold has_empty. split.
  - intros (f & Hin & Hz). apply elem_of_app in Hin as [Hin|Hin]; eauto.
  - intros [(f & Hin & Hz)|(f & Hin & Hz)]; exists f;
      (split; [apply elem_of_app; auto | done]).
Qed.
End Facts.
End CorpusFacts.

(** C6 as stated fails on [unnumbered_dir]: a raw file is empty, yet the
    error raised is [ValueError], from [int('x')]. *)
Lemma unnumbered_dir_value_error :
  has_empty (glob (lit "_raw.txt") unnumbered_dir) /\
  CorpusManager._validate_dataset AsciiInt.int (Directory unnumbered_dir)
    = Raise ValueError /\
  CorpusManager._validate_dataset AsciiInt.int (Directory unnumbered_dir)
    ≠ Raise InconsistentDatasetError.
Proof.
  split; [|split].
  - exists (file "x_raw.txt" 0). split; [|reflexivity].
    vm_compute. by left.
  - reflexivity.
  - discriminate.
Qed.

(** C6, amended. For a directory whose raw and metadata file names all
    begin with an integer that [int] accepts, [_validate_dataset] raises
    [InconsistentDatasetError] exactly when the counts of raw and metadata
    files differ, or the sorted raw IDs or the sorted metadata IDs have two
    neighbours more than 1 apart, or a raw or metadata file has size 0;
    otherwise it returns. *)
Theorem inconsistent_dataset_iff (int : str -> option Z)
    (entries : list File) (raw_ids meta_ids : list Z) :
  let raw_files := glob (lit "_raw.txt") entries in
  let meta_files := glob (lit "_meta.json") entries in
  CorpusManager.indices int raw_files = Ok raw_ids ->
  CorpusManager.indices int meta_files = Ok meta_ids ->
  (CorpusManager._validate_dataset int (Directory entries)
     = Raise InconsistentDatasetError
   <-> inconsistent raw_files meta_files raw_ids meta_ids) /\
  (CorpusManager._validate_dataset int (Directory entries) = Ok ()
   <-> ~ inconsistent raw_files meta_files raw_ids meta_ids).
Proof.
  intros raw_files meta_files Hraw Hmeta.
  unfold CorpusManager._validate_dataset, inconsistent.
  fold raw_files meta_files.
  destruct (length meta_files =? length raw_files)%nat eqn:Elen; simpl.
  2: { apply Nat.eqb_neq in Elen. split; split; try done; tauto. }
  apply Nat.eqb_eq in Elen.
  rewrite Hraw, bind_Ok_l, Hmeta, bind_Ok_l.
  destruct (CorpusFacts.check_sequential_gap (sorted Z.leb raw_ids))
    as [[-> Hg1]|[-> Hg1]]; simpl.
  2: { split; split; try done; tauto. }
  destruct (CorpusFacts.check_sequential_gap (sorted Z.leb meta_ids))
    as [[-> Hg2]|[-> Hg2]]; simpl.
  2: { split; split; try done; tauto. }
  destruct (CorpusFacts.check_sizes_cases raw_files) as [[-> He1]|[-> He1]];
    simpl.
  2: { split; split; try done; tauto. }
  destruct (CorpusFacts.check_sizes_cases meta_files) as [[-> He2]|[-> He2]].
  - split; split; try done; tauto.
  - split; split; try done; tauto.
Qed.

Lemma inconsistent_dataset_iff_witness :
  (CorpusManager._validate_dataset AsciiInt.int (Directory complete_dir)
     = Raise InconsistentDatasetError
   <-> inconsistent (glob (lit "_raw.txt") complete_dir)
         (glob (lit "_meta.json") complete_dir) [2; 1; 3]%Z [1; 3; 2]%Z) /\
  (CorpusManager._validate_dataset AsciiInt.int (Directory complete_dir)
     = Ok ()
   <-> ~ inconsistent (glob (lit "_raw.txt") complete_dir)
         (glob (lit "_meta.json") complete_dir) [2; 1; 3]%Z [1; 3; 2]%Z).
Proof.
  apply (inconsistent_dataset_iff AsciiInt.int complete_dir
           [2; 1; 3]%Z [1; 3; 2]%Z).
  - reflexivity.
  - reflexivity.
Defined.

(** C5. A directory without raw and metadata files passes the validation:
    the manager is built, with an empty storage.  A missing path and a
    path that is no directory are rejected. *)
Theorem empty_directory_accepted (int : str -> option Z)
    (entries : list File) :
  glob (lit "_raw.txt") entries = [] ->
  glob (lit "_meta.json") entries = [] ->
  CorpusManager._validate_dataset int (Directory entries) = Ok () /\
  CorpusManager.__init__ int (Directory entries) = Ok [] /\
  CorpusManager.__init__ int Missing = Raise FileNotFoundError /\
  CorpusManager.__init__ int RegularFile = Raise NotADirectoryError.
Proof.
  intros Hraw Hmeta.
  assert (Hv : CorpusManager._validate_dataset int (Directory entries)
               = Ok ()).
  { unfold CorpusManager._validate_dataset. by rewrite Hraw, Hmeta. }
  split; [exact Hv|]. split; [|done].
  unfold CorpusManager.__init__. rewrite Hv, bind_Ok_l.
  unfold CorpusManager._scan_dataset. cbn [listing]. by rewrite Hraw.
Qed.

Lemma empty_directory_accepted_witness :
  CorpusManager._validate_dataset AsciiInt.int (Directory []) = Ok () /\
  CorpusManager.__init__ AsciiInt.int (Directory []) = Ok [] /\
  CorpusManager.__init__ AsciiInt.int Missing = Raise FileNotFoundError /\
  CorpusManager.__init__ AsciiInt.int RegularFile = Raise NotADirectoryError.
Proof.
  apply (empty_directory_accepted AsciiInt.int []); reflexivity.
Defined.

(** C10. The raw IDs of [mismatched_dir] are 1 and 2 and its metadata IDs
    are 5 and 6; the counts are equal, neither list has a gap and no file
    is empty.  The validation passes, the manager is built, and the keys
    of the storage are the raw IDs 1 and 2. *)
Theorem disjoint_ids_accepted :
  CorpusManager.indices AsciiInt.int (glob (lit "_raw.txt") mismatched_dir)
    = Ok [1; 2]%Z /\
  CorpusManager.indices AsciiInt.int (glob (lit "_meta.json") mismatched_dir)
    = Ok [5; 6]%Z /\
  Forall (fun f => st_size f ≠ 0) mismatched_dir /\
  CorpusManager._validate_dataset AsciiInt.int (Directory mismatched_dir)
    = Ok () /\
  exists _storage,
    CorpusManager.__init__ AsciiInt.int (Directory mismatched_dir)
      = Ok _storage /\
    _storage.*1 = [1; 2]%Z.
Proof.
  split; [reflexivity|]. split; [reflexivity|]. split.
  - repeat constructor; discriminate.
  - split; [reflexivity|]. eexists. split; reflexivity.
Qed.

(** ** The order of the run *)

Module RunFacts.
Section Facts.
Variable int : str -> option Z.

Lemma dict_set_keys {V} (d : list (Z * V)) k v :
  (dict_set d k v).*1 = add_key d.*1 k.
Proof.
  induction d as [|[k' v'] d IH]; [done|].
  cbn [dict_set]. destruct (k' =? k)%Z eqn:E.
  - apply Z.eqb_eq in E. subst k'. rewrite !fmap_cons. unfold add_key.
    rewrite decide_True; [done|by left].
  - apply Z.eqb_neq in E. rewrite !fmap_cons, IH. unfold add_key. simpl.
    destruct (decide (k ∈ d.*1)) as [Hin|Hnin].
    + rewrite decide_True; [done|by right].
    + rewrite decide_False; [done|].
      intros [?|?]%elem_of_cons; congruence.
Qed.

Lemma dict_set_keyed d k article :
  keyed d -> article_id article = k -> keyed (dict_set d k article).
Proof.
  intros Hd Hk. induction Hd as [|[k' a'] d Hhd Hd IH]; simpl.
  - by repeat constructor.
  - destruct (k' =? k)%Z; constructor; done.
Qed.

Lemma scan_files_spec raw_files d d' :
  CorpusManager.scan_files int raw_files d = Ok d' ->
  exists ids,
    CorpusManager.indices int raw_files = Ok ids /\
    d'.*1 = foldl add_key d.*1 ids /\
    (keyed d -> keyed d').
Proof.
  revert d. induction raw_files as [|raw_file rest IH]; simpl; intros d H.
  - injection H as <-. by exists [].
  - apply bind_Ok in H as (file_id & Hid & H).
    apply bind_Ok in H as (article & Hart & H).
    unfold CorpusManager.from_raw in Hart.
    rewrite Hid, bind_Ok_l in Hart. injection Hart as <-.
    apply IH in H as (ids & Hids & Hkeys & Hkeyed).
    exists (file_id :: ids).
    unfold CorpusManager.get_article_id_from_filepath in Hid.
    rewrite Hid, bind_Ok_l, Hids, bind_Ok_l. split; [done|]. split.
    + by rewrite Hkeys, dict_set_keys.
    + intros Hd. apply Hkeyed. by apply dict_set_keyed.
Qed.

Lemma keyed_ids d : keyed d -> map article_id d.*2 = d.*1.
Proof.
  induction 1 as [|[k a] d Hhd _ IH]; [done|].
  change (article_id a :: map article_id d.*2 = k :: d.*1).
  simpl in Hhd. by rewrite Hhd, IH.
Qed.

Lemma foldl_add_key_fresh keys ids :
  NoDup (keys ++ ids) -> foldl add_key keys ids = keys ++ ids.
Proof.
  revert keys. induction ids as [|id ids IH]; simpl; intros keys Hnd.
  - by rewrite app_nil_r.
  - unfold add_key at 2. rewrite decide_False.
    + rewrite IH; rewrite <- app_assoc; done.
    + apply NoDup_app in Hnd as (_ & Hdisj & _).
      intros Hin. apply (Hdisj id Hin). by left.
Qed.

Lemma increasing_NoDup (ids : list Z) :
  StronglySorted Z.lt ids -> NoDup ids.
Proof.
  induction 1 as [|id ids _ IH Hall]; constructor; [|done].
  intros Hin. rewrite Forall_forall in Hall.
  specialize (Hall id Hin). lia.
Qed.
End Facts.

Section RunFacts.
Variable U : UnicodeData.
Variable _converter : TagConverter.
Variable analyze : str -> list MystemToken.
Variable split_by_sentence : str -> list str.

(** The calls come in threes, article after article, in the order of
    the list; an exception cuts the list short. *)
Lemma run_spec articles :
  exists annotated,
    (Run.run U _converter analyze split_by_sentence articles).1
      = flat_map writes_of annotated /\
    map article_id annotated `prefix_of` map article_id articles /\
    ((Run.run U _converter analyze split_by_sentence articles).2 = Ok ()
     -> map article_id annotated = map article_id articles).
Proof.
  induction articles as [|article rest (annotated & Hw & Hpre & Hall)];
    simpl.
  - exists []. by repeat split.
  - destruct (MorphologicalAnalysisPipeline._process U _converter analyze
                split_by_sentence (article_text article))
      as [sentences|e].
    + destruct (Run.run U _converter analyze split_by_sentence rest)
        as [writes outcome]. simpl in *.
      exists (Run.set_conllu_sentences article sentences :: annotated).
      simpl. rewrite Hw. split; [done|]. split.
      * by apply prefix_cons.
      * intros Ho. by rewrite Hall.
    + exists []. simpl. split; [done|]. split; [apply prefix_nil|done].
Qed.
End RunFacts.
End RunFacts.

(** C8 as stated fails on [complete_dir], a valid corpus that the file
    system lists with article 2 first: the manager is built and [run]
    writes for the articles 2, 1, 3 in this order. *)
Lemma run_follows_listing :
  CorpusManager.__init__ AsciiInt.int (Directory complete_dir)
    = Ok sample_storage /\
  Run.run Fragment.data sample_converter sample_analyze sample_split
    sample_storage.*2
    = (flat_map writes_of
         (map (fun article =>
                 Run.set_conllu_sentences article
                   (match MorphologicalAnalysisPipeline._process Fragment.data
                            sample_converter sample_analyze sample_split
                            (article_text article) with
                    | Ok sentences => sentences
                    | Raise _ => []
                    end))
            sample_storage.*2),
       Ok ()) /\
  map written_id
    (Run.run Fragment.data sample_converter sample_analyze sample_split
       sample_storage.*2).1
    = [2; 2; 2; 1; 1; 1; 3; 3; 3]%Z /\
  ~ Sorted Z.le
      (map written_id
         (Run.run Fragment.data sample_converter sample_analyze sample_split
            sample_storage.*2).1).
Proof.
  split; [by vm_compute|]. split; [by vm_compute|].
  assert (Hids : map written_id
    (Run.run Fragment.data sample_converter sample_analyze sample_split
       sample_storage.*2).1 = [2; 2; 2; 1; 1; 1; 3; 3; 3]%Z) by by vm_compute.
  split; [exact Hids|]. rewrite Hids. intros Hs.
  do 2 apply Sorted_inv in Hs as [Hs _].
  apply Sorted_inv in Hs as [_ Hhd]. apply HdRel_inv in Hhd. lia.
Qed.

(** C8, amended. For a corpus that the manager accepts, [run] makes its
    three calls (cleaned text, bare CONLL-U, tagged CONLL-U) article after
    article in the order of the storage, that is in the order in which the
    directory lists the raw files, each ID standing where it first occurs;
    an exception of [_process] ends the sequence early.  When the raw files
    are listed by strictly increasing ID, this is the order of strictly
    increasing ID. *)
Theorem run_order (U : UnicodeData) (_converter : TagConverter)
    (analyze : str -> list MystemToken) (split_by_sentence : str -> list str)
    (int : str -> option Z) (entries : list File)
    (_storage : list (Z * Article)) :
  CorpusManager.__init__ int (Directory entries) = Ok _storage ->
  exists raw_ids annotated,
    CorpusManager.indices int (glob (lit "_raw.txt") entries) = Ok raw_ids /\
    _storage.*1 = first_occurrences raw_ids /\
    (Run.run U _converter analyze split_by_sentence _storage.*2).1
      = flat_map writes_of annotated /\
    map article_id annotated `prefix_of` _storage.*1 /\
    ((Run.run U _converter analyze split_by_sentence _storage.*2).2 = Ok ()
     -> map article_id annotated = _storage.*1) /\
    (StronglySorted Z.lt raw_ids -> _storage.*1 = raw_ids).
Proof.
  intros H. unfold CorpusManager.__init__ in H.
  apply bind_Ok in H as ([] & _ & H).
  unfold CorpusManager._scan_dataset in H.
  apply RunFacts.scan_files_spec in H as (raw_ids & Hids & Hkeys & Hkeyed).
  pose proof (RunFacts.keyed_ids _ (Hkeyed (Forall_nil_2 _))) as Hk.
  destruct (RunFacts.run_spec U _converter analyze split_by_sentence
              _storage.*2) as (annotated & Hw & Hpre & Hall).
  rewrite Hk in Hpre, Hall.
  exists raw_ids, annotated. repeat split; try done.
  intros Hs. rewrite Hkeys. apply (RunFacts.foldl_add_key_fresh [] raw_ids).
  by apply RunFacts.increasing_NoDup.
Qed.

Lemma run_order_witness :
  exists raw_ids annotated,
    CorpusManager.indices AsciiInt.int (glob (lit "_raw.txt") complete_dir)
      = Ok raw_ids /\
    sample_storage.*1 = first_occurrences raw_ids /\
    (Run.run Fragment.data sample_converter sample_analyze sample_split
       sample_storage.*2).1 = flat_map writes_of annotated /\
    map article_id annotated `prefix_of` sample_storage.*1 /\
    ((Run.run Fragment.data sample_converter sample_analyze sample_split
        sample_storage.*2).2 = Ok ()
     -> map article_id annotated = sample_storage.*1) /\
    (StronglySorted Z.lt raw_ids -> sample_storage.*1 = raw_ids).
Proof.
  apply (run_order Fragment.data sample_converter sample_analyze sample_split
           AsciiInt.int complete_dir sample_storage).
  vm_compute. reflexivity.
Defined.

(** * Further properties *)

(** ** Regular expressions and string builtins *)

Section RunFactsOfClass.
Variable cls : char -> bool.

Lemma take_run_app (run rest : str) :
  Forall (fun c => cls c = true) run ->
  match rest with [] => True | c :: _ => cls c = false end ->
  take_run cls (run ++ rest) = run.
Proof.
  induction 1 as [|c run Hc _ IH]; simpl; intros Hrest.
  - destruct rest as [|c rest]; [done|]. simpl. by rewrite Hrest.
  - rewrite Hc. f_equal. by apply IH.
Qed.

(** [re.search] finds the first run of the class. *)
Lemma re_search_first_run (before run rest : str) :
  Forall (fun c => cls c = false) before ->
  run ≠ [] ->
  Forall (fun c => cls c = true) run ->
  match rest with [] => True | c :: _ => cls c = false end ->
  re_search cls (before ++ run ++ rest) = Some run.
Proof.
  intros Hbefore Hne Hrun Hrest.
  induction Hbefore as [|c before Hc _ IH]; simpl.
  - destruct Hrun as [|c run Hc Hrun]; [done|]. simpl. rewrite Hc.
    by rewrite take_run_app.
  - by rewrite Hc.
Qed.

Lemma re_search_None (s : str) :
  re_search cls s = None <-> Forall (fun c => cls c = false) s.
Proof.
  induction s as [|c s IH]; simpl.
  - split; [constructor|done].
  - destruct (cls c) eqn:E.
    + split; [done|]. intros H. apply Forall_cons in H as [H _]. congruence.
    + rewrite IH. split; [by constructor|]. by intros [_ H]%Forall_cons.
Qed.

Lemma re_search_Exists (s code : str) :
  re_search cls s = Some code -> Exists (fun c => cls c = true) s.
Proof.
  induction s as [|c s IH]; simpl; [done|].
  destruct (cls c) eqn:E; [by left|]. intros H. right. by apply IH.
Qed.

(** [re.findall]: every match is a non-empty run of the class. *)
Lemma findall_from_runs (cur s : str) :
  Forall (fun c => cls c = true) cur ->
  Forall (fun run => run ≠ [] /\ Forall (fun c => cls c = true) run)
    (findall_from cls cur s).
Proof.
  revert cur. induction s as [|c s IH]; simpl; intros cur Hcur.
  - destruct cur as [|x cur]; [constructor|].
    constructor; [|constructor]. split.
    + intros H. apply (f_equal (@length _)) in H.
      rewrite length_rev in H. done.
    + apply Forall_forall. intros y Hy.
      rewrite Forall_forall in Hcur. apply Hcur.
      by apply list_elem_of_In, in_rev, list_elem_of_In.
  - destruct (cls c) eqn:E.
    + apply IH. by constructor.
    + destruct cur as [|x cur]; [by apply IH|].
      constructor; [|by apply IH]. split.
      * intros H. apply (f_equal (@length _)) in H.
        rewrite length_rev in H. done.
      * apply Forall_forall. intros y Hy.
        rewrite Forall_forall in Hcur. apply Hcur.
        by apply list_elem_of_In, in_rev, list_elem_of_In.
Qed.
End RunFactsOfClass.

(** [s.replace(x, '')] for a character [x] deletes every [x]. *)
Lemma replace_char_delete (s : str) (x : char) :
  replace s [x] [] = filter (fun c => c ≠ x) s.
Proof.
  unfold replace. induction s as [|c s IH]; [done|].
  simpl. rewrite andb_true_r.
  destruct (N.eqb_spec x c) as [Heq|Hne]; simpl.
  - rewrite filter_cons_False by (intros H; by apply H). exact IH.
  - rewrite filter_cons_True by done. by rewrite IH.
Qed.

Lemma split_head_app (sep : char) (a b : str) :
  sep ∉ a -> split_head sep (a ++ sep :: b) = a.
Proof.
  induction a as [|c a IH]; simpl; intros Hnin.
  - by rewrite N.eqb_refl.
  - apply not_elem_of_cons in Hnin as [Hne Hnin].
    destruct (N.eqb_spec c sep) as [->|_]; [done|]. by rewrite IH.
Qed.

Lemma split_head_id (sep : char) (a : str) :
  sep ∉ a -> split_head sep a = a.
Proof.
  induction a as [|c a IH]; simpl; intros Hnin; [done|].
  apply not_elem_of_cons in Hnin as [Hne Hnin].
  destruct (N.eqb_spec c sep) as [->|_]; [done|]. by rewrite IH.
Qed.

(** ** More on the Mystem converter *)

Lemma bind_Raise {A B} (r : result A) (k : A -> result B) e :
  r ≫= k = Raise e ->
  r = Raise e \/ exists a, r = Ok a /\ k a = Raise e.
Proof. destruct r as [a|e']; simpl; [eauto|by intros [= ->]; left]. Qed.

Module MystemMore.
Import MystemTagConverter.

Lemma literal_getitem_pos self ud_pos categories :
  (ud_pos, categories) ∈ pos_specific_categories self ->
  literal_getitem (pos_specific_categories self) ud_pos = Ok categories.
Proof.
  unfold pos_specific_categories. intros H.
  repeat (apply elem_of_cons in H as [[= -> ->]|H]; [by vm_compute|]).
  by apply elem_of_nil in H.
Qed.

Lemma literal_getitem_KeyError {V} (d : list (str * V)) k e :
  literal_getitem d k = Raise e -> e = KeyError.
Proof.
  induction d as [|[k' v] d IH]; simpl; [by intros [= <-]|].
  destruct (str_eqb k' k); [done|exact IH].
Qed.

Lemma getitem_KeyError {V} (d : gmap str V) k e :
  getitem d k = Raise e -> e = KeyError /\ d !! k = None.
Proof. unfold getitem. destruct (d !! k); [done|by intros [= <-]]. Qed.

(** The inner loop: nothing is looked up for an empty list of tags;
    otherwise the table of the category is needed, and the last tag that
    is one of its keys gives the value. *)
Lemma collect_tags_spec self category tags ud :
  match tags, _tag_mapping self !! category with
  | [], _ => collect_tags self category tags ud = Ok ud
  | _ :: _, None => collect_tags self category tags ud = Raise KeyError
  | _ :: _, Some table =>
      collect_tags self category tags ud
      = Ok (match last_mapped table tags with
            | Some value => <[category := value]> ud
            | None => ud
            end)
  end.
Proof.
  destruct tags as [|tag0 tags0]; [done|].
  destruct (_tag_mapping self !! category) as [table|] eqn:Et.
  2: { simpl. unfold getitem. by rewrite Et. }
  generalize (tag0 :: tags0). clear tag0 tags0. intros tags. revert ud.
  induction tags as [|tag tags IH]; intros ud; [done|].
  simpl. unfold getitem. rewrite Et, bind_Ok_l.
  unfold last_mapped. cbn [omap list_omap].
  fold (omap (fun tag => table !! tag) tags).
  destruct (table !! tag) as [value|]; [|apply IH].
  rewrite IH. f_equal. unfold last_mapped.
  destruct (omap (fun tag => table !! tag) tags) as [|w ws] eqn:Eo; [done|].
  rewrite (last_cons value (w :: ws)).
  destruct (last (w :: ws)) as [v|] eqn:El.
  - by rewrite insert_insert_eq.
  - by apply last_None in El.
Qed.

Lemma collect_tags_lookup self category tags ud ud' :
  collect_tags self category tags ud = Ok ud' ->
  forall c, ud' !! c =
    if decide (c = category)
    then match contribution self tags c with
         | Some v => Some v
         | None => ud !! c
         end
    else ud !! c.
Proof.
  intros H c. pose proof (collect_tags_spec self category tags ud) as Hs.
  unfold contribution.
  destruct tags as [|tag tags].
  - rewrite Hs in H. injection H as <-.
    case_decide; [|done]. subst c.
    destruct (_tag_mapping self !! category); done.
  - destruct (_tag_mapping self !! category) as [table|] eqn:Et;
      rewrite Hs in H; [|done]. injection H as <-.
    case_decide as Hc.
    + subst c. rewrite Et. simpl.
      destruct (last_mapped table (tag :: tags)); [|done].
      by rewrite lookup_insert_eq.
    + destruct (last_mapped table (tag :: tags)); [|done].
      by rewrite lookup_insert_ne.
Qed.

Lemma collect_categories_lookup self categories tags ud ud' :
  collect_categories self categories tags ud = Ok ud' ->
  forall c, ud' !! c =
    if decide (c ∈ categories)
    then match contribution self tags c with
         | Some v => Some v
         | None => ud !! c
         end
    else ud !! c.
Proof.
  revert ud.
  induction categories as [|category rest IH]; cbn [collect_categories];
    intros ud H c.
  - injection H as <-. by rewrite decide_False by apply not_elem_of_nil.
  - apply bind_Ok in H as (ud1 & H1 & H).
    rewrite (IH _ H c), (collect_tags_lookup _ _ _ _ _ H1 c).
    destruct (decide (c = category)) as [->|Hne].
    + rewrite (decide_True (P := category ∈ category :: rest)) by by left.
      destruct (contribution self tags category); by case_decide.
    + destruct (decide (c ∈ rest)) as [Hin|Hnin].
      * by rewrite decide_True by by right.
      * rewrite decide_False; [done|].
        intros [?|?]%elem_of_cons; done.
Qed.

Lemma collect_categories_returns_iff self categories tags ud :
  (exists ud', collect_categories self categories tags ud = Ok ud') <->
  tags = [] \/
  Forall (fun category => is_Some (_tag_mapping self !! category)) categories.
Proof.
  revert ud. induction categories as [|category rest IH]; intros ud; simpl.
  - split; [by right|eauto].
  - pose proof (collect_tags_spec self category tags ud) as Hs.
    destruct tags as [|tag tags].
    + rewrite Hs, bind_Ok_l. rewrite IH. split; by left.
    + destruct (_tag_mapping self !! category) as [table|] eqn:Et; rewrite Hs.
      * rewrite bind_Ok_l, IH. split.
        -- intros [?|H]; [done|]. right. constructor; [by eexists|done].
        -- intros [?|H]; [done|]. right. by apply Forall_cons in H as [_ H].
      * split; [by intros [? ?]|]. intros [?|H]; [done|].
        apply Forall_cons in H as [[? H] _]. congruence.
Qed.

Lemma collect_categories_KeyError self categories tags ud e :
  collect_categories self categories tags ud = Raise e -> e = KeyError.
Proof.
  revert ud. induction categories as [|category rest IH]; simpl; intros ud H;
    [done|].
  apply bind_Raise in H as [H|(ud1 & _ & H)]; [|by eapply IH].
  pose proof (collect_tags_spec self category tags ud) as Hs.
  destruct tags; [congruence|].
  destruct (_tag_mapping self !! category); congruence.
Qed.

Lemma convert_pos_KeyError self tags e :
  convert_pos self tags = Raise e -> e = KeyError.
Proof.
  unfold convert_pos. destruct (re_search upper_AZ tags); [|done].
  intros H. apply bind_Raise in H as [H|(table & _ & H)].
  - by apply getitem_KeyError in H as [-> _].
  - by destruct (table !! l).
Qed.

Lemma convert_morphological_tags_KeyError self tags e :
  convert_morphological_tags self tags = Raise e -> e = KeyError.
Proof.
  unfold convert_morphological_tags. intros H.
  apply bind_Raise in H as [H|(ud_pos & _ & H)];
    [by apply convert_pos_KeyError in H|].
  apply bind_Raise in H as [H|(categories & _ & H)];
    [by apply literal_getitem_KeyError in H|].
  apply bind_Raise in H as [H|(ud & _ & H)]; [|done].
  by apply collect_categories_KeyError in H.
Qed.
End MystemMore.




(** X1. The POS code of a tag string is its first run of the letters A-Z:
    when the mapping has a POS table, [convert_pos] returns the entry of
    the table for that run, or the empty string when the table has none. *)
Theorem convert_pos_first_uppercase_run (self : TagConverter)
    (before code rest : str) (table : gmap str str) :
  Forall (fun c => upper_AZ c = false) before ->
  code ≠ [] ->
  Forall (fun c => upper_AZ c = true) code ->
  match rest with [] => True | c :: _ => upper_AZ c = false end ->
  _tag_mapping self !! lit "POS" = Some table ->
  MystemTagConverter.convert_pos self (before ++ code ++ rest)
    = Ok (default [] (table !! code)).
Proof.
  intros Hb Hne Hc Hr Ht. unfold MystemTagConverter.convert_pos.
  rewrite (re_search_first_run upper_AZ before code rest Hb Hne Hc Hr).
  unfold getitem. rewrite Ht, bind_Ok_l. by destruct (table !! code).
Qed.

Lemma convert_pos_first_uppercase_run_witness :
  MystemTagConverter.convert_pos sample_converter
    (lit "(" ++ lit "ADV" ++ lit "=)")
    = Ok (default []
            ((list_to_map [ (lit "S", lit "NOUN"); (lit "V", lit "VERB");
                            (lit "A", lit "ADJ"); (lit "ADV", lit "ADV") ]
              : gmap str str) !! lit "ADV")).
Proof.
  apply (convert_pos_first_uppercase_run sample_converter
           (lit "(") (lit "ADV") (lit "=)")).
  - repeat constructor.
  - discriminate.
  - repeat constructor.
  - reflexivity.
  - vm_compute. reflexivity.
Defined.

(** X2. [convert_pos] raises exactly when the tag string has a letter A-Z
    and the mapping has no POS table, and then it raises [KeyError]; a tag
    string without such a letter gives the empty string. *)
Theorem convert_pos_raises_iff (self : TagConverter) (tags : str) :
  (forall e,
     MystemTagConverter.convert_pos self tags = Raise e <->
     e = KeyError /\ _tag_mapping self !! lit "POS" = None /\
     Exists (fun c => upper_AZ c = true) tags) /\
  (Forall (fun c => upper_AZ c = false) tags ->
   MystemTagConverter.convert_pos self tags = Ok []).
Proof.
  unfold MystemTagConverter.convert_pos.
  destruct (re_search upper_AZ tags) as [code|] eqn:Es.
  - pose proof (re_search_Exists upper_AZ tags code Es) as Hex.
    split.
    + intros e. unfold getitem.
      destruct (_tag_mapping self !! lit "POS") as [table|] eqn:Et.
      * rewrite bind_Ok_l. split; [by destruct (table !! code)|].
        by intros (_ & ? & _).
      * rewrite bind_Raise_l. split; [by intros [= <-]|by intros [-> _]].
    + intros Hall. apply (re_search_None upper_AZ) in Hall. congruence.
  - split; [|done]. intros e. split; [done|].
    intros (_ & _ & Hex). apply (re_search_None upper_AZ) in Es.
    apply Exists_exists in Hex as (c & Hin & Hc).
    rewrite Forall_forall in Es. specialize (Es c Hin). congruence.
Qed.

(** X3. [convert_morphological_tags] returns exactly when the converted
    POS is one of the five keys of [pos_specific_categories] and either no
    tag was extracted or the mapping has a table for each category of that
    POS; otherwise it raises [KeyError]. *)
Theorem convert_morphological_tags_returns_iff (self : TagConverter)
    (tags : str) :
  ((exists feats,
      MystemTagConverter.convert_morphological_tags self tags = Ok feats) <->
   exists ud_pos categories,
     MystemTagConverter.convert_pos self tags = Ok ud_pos /\
     (ud_pos, categories) ∈ MystemTagConverter.pos_specific_categories self /\
     (MystemTagConverter.extract_tags tags = [] \/
      Forall (fun category => is_Some (_tag_mapping self !! category))
        categories)) /\
  (forall e,
     MystemTagConverter.convert_morphological_tags self tags = Raise e ->
     e = KeyError).
Proof.
  split; [|apply MystemMore.convert_morphological_tags_KeyError].
  unfold MystemTagConverter.convert_morphological_tags. split.
  - intros [feats H].
    apply bind_Ok in H as (ud_pos & Hpos & H).
    apply bind_Ok in H as (categories & Hcats & H).
    apply bind_Ok in H as (ud & Hud & _).
    exists ud_pos, categories. split; [done|].
    split; [by apply MystemFacts.literal_getitem_Ok|].
    apply (MystemMore.collect_categories_returns_iff self categories _ ∅).
    eauto.
  - intros (ud_pos & categories & Hpos & Hin & Hok).
    rewrite Hpos, bind_Ok_l.
    rewrite (MystemMore.literal_getitem_pos _ _ _ Hin), bind_Ok_l.
    apply (MystemMore.collect_categories_returns_iff self categories _ ∅)
      in Hok as [ud ->].
    rewrite bind_Ok_l. eauto.
Qed.

(** X4. In the features returned, a category of the POS occurs when some
    extracted tag is a key of its table, and its value is the one given
    for the last such tag: a later tag of a category overwrites an
    earlier one, and categories outside those of the POS never occur. *)
Theorem features_last_tag_wins (self : TagConverter) (tags feats : str) :
  MystemTagConverter.convert_morphological_tags self tags = Ok feats ->
  exists ud_pos categories (ud_tags : gmap str str),
    MystemTagConverter.convert_pos self tags = Ok ud_pos /\
    (ud_pos, categories) ∈ MystemTagConverter.pos_specific_categories self /\
    feats = join (lit "|")
              (map fmt_feature (sorted item_leb (map_to_list ud_tags))) /\
    forall category,
      ud_tags !! category =
        if decide (category ∈ categories)
        then contribution self (MystemTagConverter.extract_tags tags) category
        else None.
Proof.
  unfold MystemTagConverter.convert_morphological_tags. intros H.
  apply bind_Ok in H as (ud_pos & Hpos & H).
  apply bind_Ok in H as (categories & Hcats & H).
  apply bind_Ok in H as (ud & Hud & H). injection H as <-.
  exists ud_pos, categories, ud. split; [done|].
  split; [by apply MystemFacts.literal_getitem_Ok|]. split; [done|].
  intros category.
  rewrite (MystemMore.collect_categories_lookup _ _ _ _ _ Hud category).
  rewrite lookup_empty. case_decide; [|done].
  by destruct (contribution _ _ _).
Qed.

Lemma features_last_tag_wins_witness :
  exists ud_pos categories (ud_tags : gmap str str),
    MystemTagConverter.convert_pos sample_converter sample_gr = Ok ud_pos /\
    (ud_pos, categories)
      ∈ MystemTagConverter.pos_specific_categories sample_converter /\
    lit "Animacy=Anim|Case=Nom|Gender=Fem|Number=Sing"
      = join (lit "|")
          (map fmt_feature (sorted item_leb (map_to_list ud_tags))) /\
    forall category,
      ud_tags !! category =
        if decide (category ∈ categories)
        then contribution sample_converter
               (MystemTagConverter.extract_tags sample_gr) category
        else None.
Proof.
  apply (features_last_tag_wins sample_converter sample_gr).
  vm_compute. reflexivity.
Defined.

(** X5. Only the first alternative of a tag string is read: what follows
    the first "|" adds no tag, and the parentheses themselves are dropped
    before the tags are looked for. *)
Theorem extract_tags_first_alternative (first_alternative others : str) :
  124 ∉ first_alternative ->
  MystemTagConverter.extract_tags (first_alternative ++ [124] ++ others)
    = MystemTagConverter.extract_tags first_alternative /\
  MystemTagConverter.extract_tags first_alternative
    = re_findall cyr_lower
        (filter (fun c => c ≠ 41) (filter (fun c => c ≠ 40) first_alternative)).
Proof.
  intros Hnin. unfold MystemTagConverter.extract_tags.
  change (lit "(") with [40]. change (lit ")") with [41].
  rewrite !replace_char_delete.
  assert (Hf : 124 ∉ filter (fun c => c ≠ 41)
                        (filter (fun c => c ≠ 40) first_alternative)).
  { intros Hin. apply Hnin.
    apply list_elem_of_filter in Hin as [_ Hin].
    by apply list_elem_of_filter in Hin as [_ Hin]. }
  split.
  - change (first_alternative ++ [124] ++ others)
      with (first_alternative ++ 124 :: others).
    rewrite filter_app, (filter_cons_True (fun c => c ≠ 40) 124) by done.
    rewrite filter_app, (filter_cons_True (fun c => c ≠ 41) 124) by done.
    rewrite split_head_app by done. by rewrite split_head_id.
  - by rewrite split_head_id.
Qed.

Lemma extract_tags_first_alternative_witness :
  MystemTagConverter.extract_tags
    ((lit "S," ++ [1078; 1077; 1085] ++ lit "=(" ++ [1080; 1084])
       ++ [124] ++ ([1074; 1080; 1085] ++ lit ")"))
    = MystemTagConverter.extract_tags
        (lit "S," ++ [1078; 1077; 1085] ++ lit "=(" ++ [1080; 1084]) /\
  MystemTagConverter.extract_tags
    (lit "S," ++ [1078; 1077; 1085] ++ lit "=(" ++ [1080; 1084])
    = re_findall cyr_lower
        (filter (fun c => c ≠ 41)
           (filter (fun c => c ≠ 40)
              (lit "S," ++ [1078; 1077; 1085] ++ lit "=(" ++ [1080; 1084]))).
Proof.
  apply (extract_tags_first_alternative
           (lit "S," ++ [1078; 1077; 1085] ++ lit "=(" ++ [1080; 1084])
           ([1074; 1080; 1085] ++ lit ")")).
  vm_compute. intros H.
  repeat (apply elem_of_cons in H as [H|H]; [discriminate H|]).
  by apply elem_of_nil in H.
Defined.

(** X6. Every tag extracted from a tag string is a non-empty run of the
    letters U+0430 .. U+044F; uppercase letters, digits, commas and the
    letter U+0451 never are part of a tag. *)
Theorem extract_tags_cyrillic_runs (tags : str) :
  Forall (fun tag => tag ≠ [] /\ Forall (fun c => 1072 <= c <= 1103) tag)
    (MystemTagConverter.extract_tags tags).
Proof.
  unfold MystemTagConverter.extract_tags, re_findall.
  eapply Forall_impl; [apply findall_from_runs; constructor|].
  simpl. intros tag [Hne Hall]. split; [done|].
  eapply Forall_impl; [exact Hall|]. simpl. intros c Hc.
  unfold cyr_lower in Hc. apply andb_true_iff in Hc as [H1 H2].
  apply N.leb_le in H1, H2. lia.
Qed.

(** X7. The fallback converter looks its tables up under the lowercase
    names "case", "number", "gender" and "animacy", not under the names
    held by the class attributes: with a mapping that has no table under
    these four names it returns the empty string for every tag. *)
Theorem fallback_features_need_lowercase_tables (self : TagConverter)
    (tags : OpencorporaTag) :
  (forall category,
     category ∈ [lit "case"; lit "number"; lit "gender"; lit "animacy"] ->
     _tag_mapping self !! category = None) ->
  OpenCorporaTagConverter.convert_morphological_tags self tags = [].
Proof.
  intros Hnone.
  unfold OpenCorporaTagConverter.convert_morphological_tags.
  assert (Hf : forall entry,
    entry ∈ OpenCorporaTagConverter.parsed_tags tags ->
    OpenCorporaTagConverter.feature_of self entry = None).
  { intros [category value] Hin.
    unfold OpenCorporaTagConverter.feature_of. simpl.
    destruct value as [[|c value]|]; try done.
    rewrite Hnone; [cbn [default]; by rewrite lookup_empty|].
    unfold OpenCorporaTagConverter.parsed_tags in Hin.
    repeat (apply elem_of_cons in Hin as [[= -> _]|Hin];
            [repeat ((by left) || right)|]).
    by apply elem_of_nil in Hin. }
  unfold OpenCorporaTagConverter.parsed_tags in *.
  cbn [omap list_omap].
  rewrite !Hf; [done|..]; repeat ((by left) || right).
Qed.

Lemma fallback_features_need_lowercase_tables_witness :
  OpenCorporaTagConverter.convert_morphological_tags capitalised_converter
    {| oc_POS := Some (lit "NOUN"); oc_case := Some (lit "nomn");
       oc_number := Some (lit "sing"); oc_gender := Some (lit "femn");
       oc_animacy := Some (lit "anim") |} = [].
Proof.
  apply (fallback_features_need_lowercase_tables capitalised_converter).
  intros category H.
  repeat (apply elem_of_cons in H as [->|H]; [by vm_compute|]).
  by apply elem_of_nil in H.
Defined.

(** ** Tokens, sentences and their text forms *)

Lemma translate_delete_filter (deletechars s : str) :
  translate_delete deletechars s = filter (fun c => c ∉ deletechars) s.
Proof.
  induction s as [|c s IH]; simpl; [done|].
  destruct (existsb (N.eqb c) deletechars) eqn:E.
  - apply existsb_exists in E as (x & Hin & Hx). apply N.eqb_eq in Hx.
    subst x. apply list_elem_of_In in Hin.
    rewrite filter_cons_False; [exact IH|]. intros H. by apply H.
  - rewrite filter_cons_True; [by rewrite IH|].
    intros Hin. apply not_true_iff_false in E. apply E.
    apply existsb_exists. exists c. split; [by apply list_elem_of_In|].
    apply N.eqb_refl.
Qed.

(** X8. The cleaned form of a token is its lowercased text without the
    32 ASCII punctuation characters: none of them is left (the underscore
    included), and nothing else is removed, added or reordered. *)
Theorem token_cleaned_no_punctuation (U : UnicodeData)
    (token : ConlluToken.t) :
  let cleaned := ConlluTokenText.get_cleaned U token in
  let lowered := lower U (ConlluToken._text token) in
  cleaned = filter (fun c => c ∉ punctuation) lowered /\
  Forall (fun c => c ∉ punctuation) cleaned /\
  (95 ∉ cleaned) /\
  sublist cleaned lowered.
Proof.
  intros cleaned lowered.
  assert (Heq : cleaned = filter (fun c => c ∉ punctuation) lowered)
    by apply translate_delete_filter.
  assert (Hall : Forall (fun c => c ∉ punctuation) cleaned).
  { rewrite Heq. apply Forall_forall. intros c Hc.
    by apply list_elem_of_filter in Hc as [? _]. }
  split; [exact Heq|]. split; [exact Hall|]. split.
  - intros Hin. rewrite Forall_forall in Hall. apply (Hall 95 Hin).
    unfold punctuation. repeat ((by left) || right).
  - rewrite Heq. apply sublist_filter.
Qed.

Lemma join_terminated (sep : str) (parts : list str) :
  parts ≠ [] ->
  join sep parts ++ sep = flat_map (fun part => part ++ sep) parts.
Proof.
  induction parts as [|p parts IH]; [done|]. intros _.
  destruct parts as [|q parts].
  - simpl. by rewrite app_nil_r.
  - change (join sep (p :: q :: parts)) with (p ++ sep ++ join sep (q :: parts)).
    change (flat_map (fun part => part ++ sep) (p :: q :: parts))
      with ((p ++ sep) ++ flat_map (fun part => part ++ sep) (q :: parts)).
    rewrite <- IH by done. by rewrite <- !app_assoc.
Qed.

(** X9. A sentence block is its two comment lines followed by one line
    per token, each closed by a line feed; for a sentence without tokens
    the comment lines are followed by an empty line. *)
Theorem sentence_block_lines (sentence : ConlluSentence.t)
    (include_morphological_tags : bool) :
  ConlluSentence.get_conllu_text sentence include_morphological_tags
  = ConlluSentence.header sentence
      ++ match ConlluSentence._tokens sentence with
         | [] => [10]
         | tokens =>
             flat_map
               (fun token =>
                  ConlluToken.get_conllu_text token include_morphological_tags
                    ++ [10])
               tokens
         end.
Proof.
  unfold ConlluSentence.get_conllu_text. f_equal.
  destruct (ConlluSentence._tokens sentence) as [|token tokens]; [done|].
  rewrite join_terminated by done.
  by rewrite flat_map_concat_map, map_map, <- flat_map_concat_map.
Qed.

(** ** More on the pipeline *)

Module PipelineMore.
Section More.
Import MorphologicalAnalysisPipeline.
Variable U : UnicodeData.
Variable _converter : TagConverter.
Variable analyze : str -> list MystemToken.
Variable split_by_sentence : str -> list str.

Lemma process_sentences_index sentences idx out :
  process_sentences U _converter analyze sentences idx = Ok out ->
  map ConlluSentence._text out = sentences /\
  map ConlluSentence._position out
    = map (fun i => (idx + Z.of_nat i)%Z) (seq 0 (length sentences)).
Proof.
  revert idx out. induction sentences as [|sentence rest IH]; simpl;
    intros idx out H.
  - by injection H as <-.
  - apply bind_Ok in H as (conllu_tokens & _ & H).
    apply bind_Ok in H as (out' & Hrest & H). injection H as <-.
    apply IH in Hrest as [Ht Hp]. simpl. rewrite Ht, Hp. split; [done|].
    f_equal; [lia|].
    rewrite <- (seq_shift (length rest) 0), map_map.
    apply map_ext. intros i. lia.
Qed.

Lemma annotate_KeyError token_text token_analysis e :
  annotate U _converter token_text token_analysis = Raise e -> e = KeyError.
Proof.
  unfold annotate. destruct (isalpha U token_text).
  - destruct token_analysis as [[|first rest]|]; try done.
    intros H. apply bind_Raise in H as [H|(ud_pos & _ & H)].
    + by apply MystemMore.convert_pos_KeyError in H.
    + apply bind_Raise in H as [H|(feats & _ & H)]; [|done].
      by apply MystemMore.convert_morphological_tags_KeyError in H.
  - by destruct (isdigit U token_text).
Qed.

Lemma annotate_returns_iff token :
  (exists parameters,
     annotate U _converter (surface token) (analysis token) = Ok parameters)
  <-> (forall first rest,
         isalpha U (surface token) = true ->
         analysis token = Some (first :: rest) ->
         converts _converter (gr first)).
Proof.
  unfold annotate, converts. split.
  - intros [parameters H] first rest Ha Hn. rewrite Ha, Hn in H.
    apply bind_Ok in H as (ud_pos & Hpos & H).
    apply bind_Ok in H as (feats & Hfeats & _). eauto.
  - intros H. destruct (isalpha U (surface token)).
    + destruct (analysis token) as [[|first rest]|]; eauto.
      destruct (H first rest eq_refl eq_refl) as (ud_pos & feats & -> & ->).
      eauto.
    + destruct (isdigit U (surface token)); eauto.
Qed.

Lemma process_tokens_returns_iff mystem_analysis n :
  (exists conllu_tokens,
     process_tokens U _converter mystem_analysis n = Ok conllu_tokens)
  <-> (forall token first,
         token ∈ mystem_analysis -> analysed_word U token first ->
         converts _converter (gr first)).
Proof.
  revert n. induction mystem_analysis as [|token rest IH]; intros n; simpl.
  - split; [|eauto]. by intros _ token first ?%elem_of_nil.
  - destruct (word_regex_match U (text token)) eqn:Ew; simpl.
    + split.
      * intros [out H]. apply bind_Ok in H as (parameters & Hann & H).
        apply bind_Ok in H as (out' & Hrest & _).
        intros t first Hin Hw. apply elem_of_cons in Hin as [->|Hin].
        -- destruct Hw as (_ & Ha & rest' & Hn).
           apply (proj1 (annotate_returns_iff token)) with (rest := rest');
             eauto.
        -- apply (proj1 (IH (n + 1)%Z)) with (token := t); eauto.
      * intros H.
        destruct (proj2 (annotate_returns_iff token)) as [parameters ->].
        { intros first rest' Ha Hn. apply (H token); [by left|].
          split; [done|]. split; [done|]. by exists rest'. }
        destruct (proj2 (IH (n + 1)%Z)) as [out ->].
        { intros t first Hin. apply H. by right. }
        rewrite !bind_Ok_l. eauto.
    + rewrite IH. split.
      * intros H t first Hin Hw. apply elem_of_cons in Hin as [->|Hin].
        -- destruct Hw as (Hw & _). congruence.
        -- by apply (H t).
      * intros H t first Hin. apply H. by right.
Qed.

Lemma process_tokens_KeyError mystem_analysis n e :
  process_tokens U _converter mystem_analysis n = Raise e -> e = KeyError.
Proof.
  revert n. induction mystem_analysis as [|token rest IH]; intros n; simpl;
    [done|].
  destruct (word_regex_match U (text token)); simpl; [|apply IH].
  intros H. apply bind_Raise in H as [H|(parameters & _ & H)].
  - by apply annotate_KeyError in H.
  - apply bind_Raise in H as [H|(out & _ & H)]; [by eapply IH|done].
Qed.

Lemma process_sentences_returns_iff sentences idx :
  (exists out,
     process_sentences U _converter analyze sentences idx = Ok out)
  <-> (forall sentence token first,
         sentence ∈ sentences -> token ∈ analyze sentence ->
         analysed_word U token first -> converts _converter (gr first)).
Proof.
  revert idx. induction sentences as [|sentence rest IH]; intros idx; simpl.
  - split; [|eauto]. by intros _ s t f ?%elem_of_nil.
  - split.
    + intros [out H]. apply bind_Ok in H as (conllu_tokens & Htok & H).
      apply bind_Ok in H as (out' & Hrest & _).
      intros s t f Hin. apply elem_of_cons in Hin as [->|Hin].
      * apply (proj1 (process_tokens_returns_iff (analyze sentence) 0)).
        eauto.
      * apply (proj1 (IH (idx + 1)%Z)); eauto.
    + intros H.
      destruct (proj2 (process_tokens_returns_iff (analyze sentence) 0))
        as [conllu_tokens ->].
      { intros t f. apply H. by left. }
      destruct (proj2 (IH (idx + 1)%Z)) as [out ->].
      { intros s t f Hin. apply H. by right. }
      rewrite !bind_Ok_l. eauto.
Qed.

Lemma process_sentences_KeyError sentences idx e :
  process_sentences U _converter analyze sentences idx = Raise e ->
  e = KeyError.
Proof.
  revert idx. induction sentences as [|sentence rest IH]; intros idx; simpl;
    [done|].
  intros H. apply bind_Raise in H as [H|(conllu_tokens & _ & H)].
  - by apply process_tokens_KeyError in H.
  - apply bind_Raise in H as [H|(out & _ & H)]; [by eapply IH|done].
Qed.
End More.
End PipelineMore.

(** X10. When [_process] returns, it returns one sentence per piece of
    the segmentation, in the same order, each with the piece as its text
    and with its index, counted from 0, as its position. *)
Theorem process_sentence_order (U : UnicodeData) (_converter : TagConverter)
    (analyze : str -> list MystemToken) (split_by_sentence : str -> list str)
    (raw_text : str) (sentences : list ConlluSentence.t) :
  MorphologicalAnalysisPipeline._process U _converter analyze
    split_by_sentence raw_text = Ok sentences ->
  map ConlluSentence._text sentences = split_by_sentence raw_text /\
  map ConlluSentence._position sentences
    = map Z.of_nat (seq 0 (length (split_by_sentence raw_text))).
Proof.
  intros H. apply PipelineMore.process_sentences_index in H as [Ht Hp].
  split; [exact Ht|]. rewrite Hp. apply map_ext. intros i. lia.
Qed.

Lemma process_sentence_order_witness :
  map ConlluSentence._text sample_sentences = sample_split sample_text /\
  map ConlluSentence._position sample_sentences
    = map Z.of_nat (seq 0 (length (sample_split sample_text))).
Proof.
  apply (process_sentence_order Fragment.data sample_converter sample_analyze
           sample_split sample_text sample_sentences).
  vm_compute. reflexivity.
Defined.

(** X11. A retained token of letters that has a candidate analysis gets
    the lemma of its first candidate, and as POS and features what the
    converter returns for the tag string of that candidate; the other
    candidates are not read. *)
Theorem analysed_words_converted (U : UnicodeData)
    (_converter : TagConverter) (analyze : str -> list MystemToken)
    (split_by_sentence : str -> list str)
    (raw_text : str) (sentences : list ConlluSentence.t) :
  MorphologicalAnalysisPipeline._process U _converter analyze
    split_by_sentence raw_text = Ok sentences ->
  Forall2 (fun sentence sentence_obj =>
    Forall2 (fun token conllu_token =>
      let parameters := ConlluToken._morphological_parameters conllu_token in
      forall first rest,
        isalpha U (MorphologicalAnalysisPipeline.surface token) = true ->
        analysis token = Some (first :: rest) ->
        MorphologicalTokenDTO.lemma parameters = lex first /\
        MystemTagConverter.convert_pos _converter (gr first)
          = Ok (MorphologicalTokenDTO.pos parameters) /\
        MystemTagConverter.convert_morphological_tags _converter (gr first)
          = Ok (MorphologicalTokenDTO.tags parameters))
      (retained U (analyze sentence))
      (ConlluSentence._tokens sentence_obj))
    (split_by_sentence raw_text) sentences.
Proof.
  intros H. apply PipelineFacts.process_sentences_spec in H.
  eapply Forall2_impl; [exact H|]. simpl.
  intros sentence sentence_obj [_ Hnum].
  apply PipelineFacts.numbered_Forall2 in Hnum.
  eapply Forall2_impl; [exact Hnum|]. simpl.
  intros token conllu_token (k & _ & _ & Hann) first rest Ha Hn.
  unfold MorphologicalAnalysisPipeline.annotate in Hann.
  rewrite Ha, Hn in Hann.
  apply bind_Ok in Hann as (ud_pos & Hpos & Hann).
  apply bind_Ok in Hann as (feats & Hfeats & Hann).
  injection Hann as <-. by simpl.
Qed.

Lemma analysed_words_converted_witness :
  Forall2 (fun sentence sentence_obj =>
    Forall2 (fun token conllu_token =>
      let parameters := ConlluToken._morphological_parameters conllu_token in
      forall first rest,
        isalpha Fragment.data (MorphologicalAnalysisPipeline.surface token)
          = true ->
        analysis token = Some (first :: rest) ->
        MorphologicalTokenDTO.lemma parameters = lex first /\
        MystemTagConverter.convert_pos sample_converter (gr first)
          = Ok (MorphologicalTokenDTO.pos parameters) /\
        MystemTagConverter.convert_morphological_tags sample_converter
          (gr first)
          = Ok (MorphologicalTokenDTO.tags parameters))
      (retained Fragment.data (sample_analyze sentence))
      (ConlluSentence._tokens sentence_obj))
    (sample_split sample_text) sample_sentences.
Proof.
  apply (analysed_words_converted Fragment.data sample_converter
           sample_analyze sample_split sample_text sample_sentences).
  vm_compute. reflexivity.
Defined.

(** X12. [_process] returns exactly when the converter returns on the tag
    string of the first candidate of every analysed word it meets (a
    retained token of letters with a candidate analysis); otherwise the
    exception it raises is [KeyError]. *)
Theorem process_returns_iff (U : UnicodeData) (_converter : TagConverter)
    (analyze : str -> list MystemToken) (split_by_sentence : str -> list str)
    (raw_text : str) :
  ((exists sentences,
      MorphologicalAnalysisPipeline._process U _converter analyze
        split_by_sentence raw_text = Ok sentences) <->
   (forall sentence token first,
      sentence ∈ split_by_sentence raw_text ->
      token ∈ analyze sentence ->
      analysed_word U token first ->
      converts _converter (gr first))) /\
  (forall e,
     MorphologicalAnalysisPipeline._process U _converter analyze
       split_by_sentence raw_text = Raise e -> e = KeyError).
Proof.
  split.
  - apply PipelineMore.process_sentences_returns_iff.
  - intros e. apply PipelineMore.process_sentences_KeyError.
Qed.

(** ** More on the corpus manager *)

Module CorpusMore.
Section More.
Import CorpusManager.
Variable int : str -> option Z.

Lemma indices_cases files :
  (exists ids, indices int files = Ok ids /\
               Forall (fun file => is_Some (int (leading file))) files) \/
  (indices int files = Raise ValueError /\
   Exists (fun file => int (leading file) = None) files).
Proof.
  induction files as [|file files IH]; simpl.
  - left. by exists [].
  - unfold file_index. fold (leading file).
    destruct (int (leading file)) as [n|] eqn:E.
    + rewrite bind_Ok_l. destruct IH as [(ids & -> & Hall)|[-> Hex]].
      * left. exists (n :: ids). split; [done|]. constructor; [by eexists|done].
      * right. split; [done|]. by right.
    + right. split; [done|]. by left.
Qed.

(** The course of [_validate_dataset] on a directory. *)
Lemma validate_cases entries :
  let raw_files := glob (lit "_raw.txt") entries in
  let meta_files := glob (lit "_meta.json") entries in
  (length meta_files ≠ length raw_files /\
   _validate_dataset int (Directory entries) = Raise InconsistentDatasetError)
  \/
  (length meta_files = length raw_files /\
   Exists (fun file => int (leading file) = None) (raw_files ++ meta_files) /\
   _validate_dataset int (Directory entries) = Raise ValueError)
  \/
  (length meta_files = length raw_files /\
   exists raw_ids meta_ids,
     indices int raw_files = Ok raw_ids /\
     indices int meta_files = Ok meta_ids /\
     Forall (fun file => is_Some (int (leading file)))
       (raw_files ++ meta_files) /\
     ((_validate_dataset int (Directory entries)
         = Raise InconsistentDatasetError /\
       (has_gap (sorted Z.leb raw_ids) \/ has_gap (sorted Z.leb meta_ids) \/
        has_empty raw_files \/ has_empty meta_files))
      \/
      (_validate_dataset int (Directory entries) = Ok () /\
       ~ has_gap (sorted Z.leb raw_ids) /\
       ~ has_gap (sorted Z.leb meta_ids) /\
       ~ has_empty raw_files /\ ~ has_empty meta_files))).
Proof.
  intros raw_files meta_files. unfold _validate_dataset.
  fold raw_files meta_files.
  destruct (length meta_files =? length raw_files)%nat eqn:Elen; simpl.
  2: { apply Nat.eqb_neq in Elen. by left. }
  apply Nat.eqb_eq in Elen. right.
  destruct (indices_cases raw_files) as [(raw_ids & Hraw & Hr)|[Hraw Hr]];
    rewrite Hraw.
  2: { left. split; [done|]. split; [|done].
       apply Exists_app. by left. }
  rewrite bind_Ok_l.
  destruct (indices_cases meta_files) as [(meta_ids & Hmeta & Hm)|[Hmeta Hm]];
    rewrite Hmeta.
  2: { left. split; [done|]. split; [|done].
       apply Exists_app. by right. }
  rewrite bind_Ok_l. right. split; [done|].
  exists raw_ids, meta_ids. split; [done|]. split; [done|].
  split; [by apply Forall_app|].
  destruct (CorpusFacts.check_sequential_gap (sorted Z.leb raw_ids))
    as [[-> Hg1]|[-> Hg1]]; simpl; [|by left; split; [|left]].
  destruct (CorpusFacts.check_sequential_gap (sorted Z.leb meta_ids))
    as [[-> Hg2]|[-> Hg2]]; simpl; [|by left; split; [|right; left]].
  destruct (CorpusFacts.check_sizes_cases raw_files) as [[-> He1]|[-> He1]];
    simpl; [|by left; split; [|right; right; left]].
  destruct (CorpusFacts.check_sizes_cases meta_files) as [[-> He2]|[-> He2]].
  - by right.
  - left. split; [done|]. by do 3 right.
Qed.

(** A sorted list of integers without a gap holds every integer between
    two of its members. *)
Lemma no_gap_from_head (x : Z) (ind : list Z) (z b : Z) :
  ~ has_gap (x :: ind) -> b ∈ x :: ind -> (x <= z <= b)%Z -> z ∈ x :: ind.
Proof.
  revert x. induction ind as [|y ind IH]; intros x Hgap Hb Hz.
  - apply list_elem_of_singleton in Hb. subst b.
    assert (z = x) as -> by lia. by left.
  - destruct (decide (z = x)) as [->|Hne]; [by left|]. right.
    assert (Hstep : (y - x <= 1)%Z).
    { destruct (decide (y - x <= 1)%Z) as [?|Hbig]; [done|].
      exfalso. apply Hgap. exists 0%nat, x, y. repeat split; [lia]. }
    apply elem_of_cons in Hb as [->|Hb]; [lia|].
    apply IH; [|done|lia].
    intros (i & id1 & id2 & H1 & H2 & Hd). apply Hgap.
    by exists (S i), id1, id2.
Qed.

Lemma no_gap_between (ind : list Z) (a b z : Z) :
  Sorted (fun x y => Z.leb x y = true) ind -> ~ has_gap ind ->
  a ∈ ind -> b ∈ ind -> (a <= z <= b)%Z -> z ∈ ind.
Proof.
  intros Hs. apply Sorted_StronglySorted in Hs.
  2: { intros x y w Hxy Hyw. apply Z.leb_le in Hxy, Hyw. apply Z.leb_le. lia. }
  induction Hs as [|x ind Hs IH Hall]; intros Hgap Ha Hb Hz.
  - by apply elem_of_nil in Ha.
  - apply elem_of_cons in Ha as [->|Ha].
    + by apply (no_gap_from_head x ind z b).
    + apply elem_of_cons in Hb as [->|Hb].
      * rewrite Forall_forall in Hall. specialize (Hall a Ha).
        apply Z.leb_le in Hall. assert (z = a) as -> by lia. by right.
      * right. apply IH; try done.
        intros (i & id1 & id2 & H1 & H2 & Hd). apply Hgap.
        by exists (S i), id1, id2.
Qed.

Lemma Z_leb_total (a b : Z) : Z.leb a b = false -> Z.leb b a = true.
Proof. intros H. apply Z.leb_gt in H. apply Z.leb_le. lia. Qed.

Lemma add_key_NoDup keys id : NoDup keys -> NoDup (add_key keys id).
Proof.
  intros Hnd. unfold add_key. case_decide; [done|].
  apply NoDup_app. split; [done|]. split; [|apply NoDup_singleton].
  intros x Hx ->%list_elem_of_singleton. done.
Qed.

Lemma add_key_elem keys id x : x ∈ add_key keys id <-> x ∈ keys \/ x = id.
Proof.
  unfold add_key. case_decide.
  - split; [by left|]. by intros [?| ->].
  - rewrite elem_of_app, list_elem_of_singleton. done.
Qed.

Lemma foldl_add_key_NoDup ids keys :
  NoDup keys -> NoDup (foldl add_key keys ids).
Proof.
  revert keys. induction ids as [|id ids IH]; simpl; intros keys H; [done|].
  by apply IH, add_key_NoDup.
Qed.

Lemma foldl_add_key_elem ids keys x :
  x ∈ foldl add_key keys ids <-> x ∈ keys \/ x ∈ ids.
Proof.
  revert keys. induction ids as [|id ids IH]; simpl; intros keys.
  - split; [by left|]. by intros [?|?%elem_of_nil].
  - rewrite IH, add_key_elem, elem_of_cons. tauto.
Qed.

Lemma foldl_add_key_length ids keys :
  (length (foldl add_key keys ids) <= length keys + length ids)%nat.
Proof.
  revert keys. induction ids as [|id ids IH]; simpl; intros keys; [lia|].
  specialize (IH (add_key keys id)). unfold add_key in *.
  case_decide; [lia|]. rewrite length_app in IH. simpl in IH. lia.
Qed.

Lemma indices_length files ids :
  indices int files = Ok ids -> length ids = length files.
Proof.
  revert ids. induction files as [|file files IH]; simpl; intros ids H.
  - by injection H as <-.
  - apply bind_Ok in H as (n & _ & H). apply bind_Ok in H as (ns & Hns & H).
    injection H as <-. simpl. f_equal. by apply IH.
Qed.
End More.
End CorpusMore.

(** X13. On a directory [_validate_dataset] raises [ValueError] exactly
    when the counts of raw and metadata files are equal and the name of
    some raw or metadata file does not begin with an integer that [int]
    accepts; the only other exception it raises on a directory is
    [InconsistentDatasetError], and unequal counts raise it whatever the
    names are. *)
Theorem validation_value_error (int : str -> option Z)
    (entries : list File) :
  let raw_files := glob (lit "_raw.txt") entries in
  let meta_files := glob (lit "_meta.json") entries in
  (CorpusManager._validate_dataset int (Directory entries) = Raise ValueError
   <-> length meta_files = length raw_files /\
       Exists (fun file => int (leading file) = None)
         (raw_files ++ meta_files)) /\
  (length meta_files ≠ length raw_files ->
   CorpusManager._validate_dataset int (Directory entries)
     = Raise InconsistentDatasetError) /\
  (forall e,
     CorpusManager._validate_dataset int (Directory entries) = Raise e ->
     e = InconsistentDatasetError \/ e = ValueError).
Proof.
  intros raw_files meta_files.
  destruct (CorpusMore.validate_cases int entries)
    as [[Hlen ->]|[(Hlen & Hex & ->)|(Hlen & raw_ids & meta_ids & _ & _
                                       & Hall & Hv)]].
  - split; [split; [done|by intros [? _]]|]. split; [done|].
    intros e [= <-]. by left.
  - split; [done|]. split; [done|]. intros e [= <-]. by right.
  - assert (Hno : ~ Exists (fun file => int (leading file) = None)
                      (raw_files ++ meta_files)).
    { intros Hex. apply Exists_exists in Hex as (f & Hin & Hf).
      rewrite Forall_forall in Hall. destruct (Hall f Hin) as [n Hn].
      congruence. }
    destruct Hv as [[-> _]|[-> _]].
    + split; [split; [done|by intros [_ ?]]|]. split; [done|].
      intros e [= <-]. by left.
    + split; [split; [done|by intros [_ ?]]|]. split; [done|]. done.
Qed.

(** X14. In a directory that passes the validation the raw IDs leave out
    no integer: every integer between two raw IDs is a raw ID itself, and
    likewise for the metadata IDs. *)
Theorem validated_ids_contiguous (int : str -> option Z)
    (entries : list File) :
  CorpusManager._validate_dataset int (Directory entries) = Ok () ->
  exists raw_ids meta_ids,
    CorpusManager.indices int (glob (lit "_raw.txt") entries) = Ok raw_ids /\
    CorpusManager.indices int (glob (lit "_meta.json") entries)
      = Ok meta_ids /\
    length raw_ids = length meta_ids /\
    (forall a b z, a ∈ raw_ids -> b ∈ raw_ids -> (a <= z <= b)%Z ->
                   z ∈ raw_ids) /\
    (forall a b z, a ∈ meta_ids -> b ∈ meta_ids -> (a <= z <= b)%Z ->
                   z ∈ meta_ids).
Proof.
  intros Hok.
  destruct (CorpusMore.validate_cases int entries)
    as [[_ H]|[(_ & _ & H)|(Hlen & raw_ids & meta_ids & Hraw & Hmeta
                             & _ & Hv)]];
    [congruence..|].
  destruct Hv as [[H _]|(_ & Hg1 & Hg2 & _)]; [congruence|].
  exists raw_ids, meta_ids. split; [done|]. split; [done|]. split.
  { rewrite (CorpusMore.indices_length int _ _ Hraw).
    by rewrite (CorpusMore.indices_length int _ _ Hmeta). }
  split; intros a b z Ha Hb Hz.
  - rewrite (sorted_perm Z.leb raw_ids) in Ha, Hb |- *.
    apply (CorpusMore.no_gap_between (sorted Z.leb raw_ids) a b z);
      [apply sorted_Sorted; apply CorpusMore.Z_leb_total|done..].
  - rewrite (sorted_perm Z.leb meta_ids) in Ha, Hb |- *.
    apply (CorpusMore.no_gap_between (sorted Z.leb meta_ids) a b z);
      [apply sorted_Sorted; apply CorpusMore.Z_leb_total|done..].
Qed.

Lemma validated_ids_contiguous_witness :
  exists raw_ids meta_ids,
    CorpusManager.indices AsciiInt.int (glob (lit "_raw.txt") complete_dir)
      = Ok raw_ids /\
    CorpusManager.indices AsciiInt.int (glob (lit "_meta.json") complete_dir)
      = Ok meta_ids /\
    length raw_ids = length meta_ids /\
    (forall a b z, a ∈ raw_ids -> b ∈ raw_ids -> (a <= z <= b)%Z ->
                   z ∈ raw_ids) /\
    (forall a b z, a ∈ meta_ids -> b ∈ meta_ids -> (a <= z <= b)%Z ->
                   z ∈ meta_ids).
Proof.
  apply (validated_ids_contiguous AsciiInt.int complete_dir).
  reflexivity.
Defined.

Module StorageFacts.
Section Facts.
Import CorpusManager.
Variable int : str -> option Z.

Lemma dict_set_elem {V} (d : list (Z * V)) k0 v0 k v :
  NoDup d.*1 -> (k, v) ∈ dict_set d k0 v0 ->
  (k = k0 /\ v = v0) \/ ((k, v) ∈ d /\ k ≠ k0).
Proof.
  induction d as [|[k' v'] d IH]; cbn [dict_set]; intros Hnd Hin.
  - apply list_elem_of_singleton in Hin. injection Hin as -> ->. by left.
  - rewrite fmap_cons in Hnd. apply NoDup_cons in Hnd as [Hnotin Hnd].
    destruct (k' =? k0)%Z eqn:E.
    + apply Z.eqb_eq in E. subst k'.
      apply elem_of_cons in Hin as [[= -> ->]|Hin]; [by left|]. right.
      split; [by right|]. intros ->. apply Hnotin.
      apply list_elem_of_fmap. by exists (k0, v).
    + apply Z.eqb_neq in E.
      apply elem_of_cons in Hin as [[= -> ->]|Hin].
      * right. split; [by left|done].
      * destruct (IH Hnd Hin) as [?|[? ?]]; [by left|].
        right. split; [by right|done].
Qed.

Lemma dict_set_NoDup {V} (d : list (Z * V)) k v :
  NoDup d.*1 -> NoDup (dict_set d k v).*1.
Proof. rewrite RunFacts.dict_set_keys. apply CorpusMore.add_key_NoDup. Qed.

(** Where an entry of the storage comes from: it was there before and no
    file has its key, or it is the article of the last file that has its
    key. *)
Lemma scan_files_entries files d d' :
  scan_files int files d = Ok d' -> NoDup d.*1 ->
  forall k a, (k, a) ∈ d' ->
    ((k, a) ∈ d /\ Forall (fun file => file_index int file ≠ Ok k) files) \/
    (exists before raw_file after,
       files = before ++ raw_file :: after /\
       file_index int raw_file = Ok k /\
       Forall (fun later => file_index int later ≠ Ok k) after /\
       a = article_of k raw_file).
Proof.
  revert d. induction files as [|file files IH]; simpl; intros d H Hnd k a Hin.
  - injection H as <-. left. by split.
  - apply bind_Ok in H as (file_id & Hid & H).
    apply bind_Ok in H as (article & Hart & H).
    unfold from_raw in Hart. rewrite Hid, bind_Ok_l in Hart.
    injection Hart as <-. unfold get_article_id_from_filepath in Hid.
    destruct (IH _ H (dict_set_NoDup _ _ _ Hnd) k a Hin)
      as [[Hd Hnone]|(before & raw_file & after & -> & Hk & Hafter & ->)].
    + apply (dict_set_elem _ _ _ _ _ Hnd) in Hd as [[-> ->]|[Hd Hne]].
      * right. by exists [], file, files.
      * left. split; [done|]. constructor; [|done]. rewrite Hid. congruence.
    + right. by exists (file :: before), raw_file, after.
Qed.

Lemma indices_elem files ids file :
  indices int files = Ok ids -> file ∈ files ->
  exists id, file_index int file = Ok id /\ id ∈ ids.
Proof.
  revert ids. induction files as [|f files IH]; simpl; intros ids H Hin.
  - by apply elem_of_nil in Hin.
  - apply bind_Ok in H as (n & Hn & H). apply bind_Ok in H as (ns & Hns & H).
    injection H as <-. apply elem_of_cons in Hin as [->|Hin].
    + exists n. split; [done|by left].
    + destruct (IH _ Hns Hin) as (id & ? & ?). exists id.
      split; [done|by right].
Qed.
End Facts.
End StorageFacts.

(** X16. The storage of a manager holds one article for every ID of a raw
    file and nothing else: its keys are pairwise distinct, each raw file
    has its ID among them, and the article under a key is the one made of
    the last raw file of the listing that has this ID, so the storage is
    never longer than the list of raw files. *)
Theorem storage_registers_raw_files (int : str -> option Z)
    (entries : list File) (_storage : list (Z * Article)) :
  CorpusManager.__init__ int (Directory entries) = Ok _storage ->
  let raw_files := glob (lit "_raw.txt") entries in
  NoDup _storage.*1 /\
  (length _storage <= length raw_files)%nat /\
  (forall raw_file, raw_file ∈ raw_files ->
     exists id, CorpusManager.file_index int raw_file = Ok id /\
                id ∈ _storage.*1) /\
  Forall (fun entry =>
            exists before raw_file after,
              raw_files = before ++ raw_file :: after /\
              CorpusManager.file_index int raw_file = Ok entry.1 /\
              Forall (fun later =>
                        CorpusManager.file_index int later ≠ Ok entry.1)
                after /\
              entry.2 = article_of entry.1 raw_file)
    _storage.
Proof.
  intros H raw_files. unfold CorpusManager.__init__ in H.
  apply bind_Ok in H as ([] & _ & H).
  unfold CorpusManager._scan_dataset in H. cbn [listing] in H.
  fold raw_files in H.
  destruct (RunFacts.scan_files_spec int _ _ _ H) as (ids & Hids & Hkeys & _).
  change ([] : list (Z * Article)).*1 with ([] : list Z) in Hkeys.
  split; [|split; [|split]].
  - rewrite Hkeys. apply CorpusMore.foldl_add_key_NoDup. constructor.
  - rewrite <- (length_fmap fst), Hkeys.
    pose proof (CorpusMore.foldl_add_key_length ids []) as Hl.
    rewrite (CorpusMore.indices_length int _ _ Hids) in Hl. simpl in Hl. lia.
  - intros raw_file Hin.
    destruct (StorageFacts.indices_elem int _ _ _ Hids Hin) as (id & Hid & ?).
    exists id. split; [done|]. rewrite Hkeys.
    apply CorpusMore.foldl_add_key_elem. by right.
  - apply Forall_forall. intros [k a] Hin. simpl.
    destruct (StorageFacts.scan_files_entries int _ _ _ H (NoDup_nil_2) k a Hin)
      as [[Hnil _]|Hlast]; [by apply elem_of_nil in Hnil|exact Hlast].
Qed.

Lemma storage_registers_raw_files_witness :
  let raw_files := glob (lit "_raw.txt") complete_dir in
  NoDup sample_storage.*1 /\
  (length sample_storage <= length raw_files)%nat /\
  (forall raw_file, raw_file ∈ raw_files ->
     exists id, CorpusManager.file_index AsciiInt.int raw_file = Ok id /\
                id ∈ sample_storage.*1) /\
  Forall (fun entry =>
            exists before raw_file after,
              raw_files = before ++ raw_file :: after /\
              CorpusManager.file_index AsciiInt.int raw_file = Ok entry.1 /\
              Forall (fun later =>
                        CorpusManager.file_index AsciiInt.int later
                          ≠ Ok entry.1)
                after /\
              entry.2 = article_of entry.1 raw_file)
    sample_storage.
Proof.
  apply (storage_registers_raw_files AsciiInt.int complete_dir sample_storage).
  vm_compute. reflexivity.
Defined.

(** X17. [run] handles the articles one after the other and stops at the
    first one on which [_process] raises: every article before it is
    written three times, carrying the sentences [_process] built from its
    text, nothing is written for the failing article or those after it,
    and the exception is the one of [_process]; without such an article
    every article is written and [run] returns. *)
Theorem run_stops_at_first_failure (U : UnicodeData)
    (_converter : TagConverter) (analyze : str -> list MystemToken)
    (split_by_sentence : str -> list str) (articles : list Article) :
  exists written annotated rest,
    articles = written ++ rest /\
    Forall2 (annotated_by U _converter analyze split_by_sentence)
      written annotated /\
    (Run.run U _converter analyze split_by_sentence articles).1
      = flat_map writes_of annotated /\
    match rest with
    | [] =>
        (Run.run U _converter analyze split_by_sentence articles).2 = Ok ()
    | failing :: _ =>
        exists e,
          MorphologicalAnalysisPipeline._process U _converter analyze
            split_by_sentence (article_text failing) = Raise e /\
          (Run.run U _converter analyze split_by_sentence articles).2
            = Raise e
    end.
Proof.
  induction articles
    as [|article articles (written & annotated & rest & -> & Hf & Hw & Hr)].
  - exists [], [], []. repeat split; constructor.
  - cbn [Run.run].
    destruct (MorphologicalAnalysisPipeline._process U _converter analyze
                split_by_sentence (article_text article))
      as [sentences|e] eqn:Ep.
    + destruct (Run.run U _converter analyze split_by_sentence
                  (written ++ rest)) as [writes outcome]. simpl in *.
      exists (article :: written),
             (Run.set_conllu_sentences article sentences :: annotated), rest.
      split; [done|]. split.
      * constructor; [|done]. by exists sentences.
      * split; [by rewrite Hw|exact Hr].
    + exists [], [], (article :: written ++ rest).
      split; [done|]. split; [constructor|]. split; [done|]. by exists e.
Qed.

(** * Crawler *)

Module ConfigFacts.
Lemma check_seed_urls_None (seed_urls : list json) :
  Config.check_seed_urls seed_urls = None <->
  exists urls, seed_urls = map JStr urls /\
               Forall (fun url => seed_url_match url = true) urls.
Proof.
  induction seed_urls as [|v seed_urls IH]; simpl.
  - split; [by exists []|done].
  - destruct v as [| | | |s| |];
      try (split; [done|]; intros ([|u urls] & Heq & _); discriminate Heq).
    destruct (seed_url_match s) eqn:E; simpl.
    + rewrite IH. split.
      * intros (urls & -> & Hall). exists (s :: urls). by split; [|constructor].
      * intros ([|u urls] & Heq & Hall); [done|]. injection Heq as -> ->.
        exists urls. split; [done|]. by apply Forall_cons in Hall as [_ ?].
    + split; [done|]. intros ([|u urls] & Heq & Hall); [done|].
      injection Heq as -> ->. apply Forall_cons in Hall as [? _]. congruence.
Qed.

Lemma forallb_is_str_map (urls : list str) :
  forallb is_str (map JStr urls) = true.
Proof. induction urls; simpl; done. Qed.
End ConfigFacts.

(** X19. [_validate_config_content] returns exactly for a configuration
    whose seed URLs are a list of strings that each begin with "http://"
    or "https://", whose number of articles is an integer from 1 to the
    upper limit, whose headers are a dictionary, whose encoding is a
    string, whose timeout is an integer strictly between the two limits,
    and whose two flags are booleans; where an integer is asked for, the
    booleans pass as 1 and 0. *)
Theorem config_accepted_iff (NUM_ARTICLES_UPPER_LIMIT TIMEOUT_LOWER_LIMIT
    TIMEOUT_UPPER_LIMIT : Z) (config : Config.t) :
  Config._validate_config_content NUM_ARTICLES_UPPER_LIMIT
    TIMEOUT_LOWER_LIMIT TIMEOUT_UPPER_LIMIT config = None
  <->
  (exists urls,
     Config._seed_urls config = JList (map JStr urls) /\
     Forall (fun url => seed_url_match url = true) urls) /\
  (exists n, as_int (Config._num_articles config) = Some n /\
             (1 <= n <= NUM_ARTICLES_UPPER_LIMIT)%Z) /\
  (exists members, Config._headers config = JDict members) /\
  (exists encoding, Config._encoding config = JStr encoding) /\
  (exists timeout, as_int (Config._timeout config) = Some timeout /\
                   (TIMEOUT_LOWER_LIMIT < timeout < TIMEOUT_UPPER_LIMIT)%Z) /\
  (exists b, Config._should_verify_certificate config = JBool b) /\
  (exists b, Config._headless_mode config = JBool b).
Proof.
  unfold Config._validate_config_content. split.
  - intros H.
    destruct (Config._seed_urls config) as [| | | | |seed_urls|]; try done.
    destruct (forallb is_str seed_urls); [|done]. simpl in H.
    destruct (Config.check_seed_urls seed_urls) eqn:Es; [done|].
    apply ConfigFacts.check_seed_urls_None in Es as (urls & -> & Hall).
    destruct (as_int (Config._num_articles config)) as [n|]; [|done].
    destruct (n <? 1)%Z eqn:E1; [done|].
    destruct (NUM_ARTICLES_UPPER_LIMIT <? n)%Z eqn:E2; [done|].
    destruct (Config._headers config) as [| | | | | |members]; try done.
    destruct (Config._encoding config) as [| | | |encoding| |]; try done.
    simpl in H.
    destruct (as_int (Config._timeout config)) as [timeout|]; [|done].
    destruct (timeout <=? TIMEOUT_LOWER_LIMIT)%Z eqn:E3; [done|].
    destruct (TIMEOUT_UPPER_LIMIT <=? timeout)%Z eqn:E4; [done|].
    simpl in H.
    destruct (Config._should_verify_certificate config)
      as [|b1| | | | |]; try done.
    destruct (Config._headless_mode config) as [|b2| | | | |]; try done.
    repeat split; eauto.
    + exists n. split; [done|]. lia.
    + exists timeout. split; [done|]. lia.
  - intros ((urls & -> & Hall) & (n & -> & Hn) & (members & ->)
            & (encoding & ->) & (timeout & -> & Ht) & (b1 & ->) & (b2 & ->)).
    rewrite ConfigFacts.forallb_is_str_map. simpl.
    rewrite (proj2 (ConfigFacts.check_seed_urls_None (map JStr urls)))
      by eauto.
    destruct (Z.ltb_spec n 1); [lia|].
    destruct (Z.ltb_spec NUM_ARTICLES_UPPER_LIMIT n); [lia|].
    destruct (Z.leb_spec timeout TIMEOUT_LOWER_LIMIT); [lia|].
    destruct (Z.leb_spec TIMEOUT_UPPER_LIMIT timeout); [lia|]. done.
Qed.

Module CrawlerFacts.
Section Facts.
Import Crawler.
Variable urljoin : str -> str.
Variable scheme : str -> str.
Variable anchors : nat -> str -> list (option str).
Variable num_articles : Z.
Variable seed_urls : list str.



End Facts.
End CrawlerFacts.



(** X21. A configuration stays valid when its list of seed URLs is
    emptied, and without seed URLs [find_articles] never returns when at
    least one article is asked for: however many passes of the [while]
    loop are allowed, the method is still running, with no request made
    and no URL found. *)
Theorem no_seed_urls_never_returns (NUM_ARTICLES_UPPER_LIMIT
    TIMEOUT_LOWER_LIMIT TIMEOUT_UPPER_LIMIT : Z) (config : Config.t)
    (urljoin : str -> str) (scheme : str -> str)
    (anchors : nat -> str -> list (option str)) (num_articles : Z) :
  Config._validate_config_content NUM_ARTICLES_UPPER_LIMIT
    TIMEOUT_LOWER_LIMIT TIMEOUT_UPPER_LIMIT config = None ->
  as_int (Config._num_articles config) = Some num_articles ->
  Config._validate_config_content NUM_ARTICLES_UPPER_LIMIT
    TIMEOUT_LOWER_LIMIT TIMEOUT_UPPER_LIMIT (without_seeds config) = None /\
  (forall fuel,
     Crawler.find_articles urljoin scheme anchors num_articles [] fuel 0 []
       = None).
Proof.
  intros Hvalid Hnum. split.
  - unfold Config._validate_config_content in *.
    destruct (Config._seed_urls config) as [| | | | |seed_urls|]; try done.
    destruct (forallb is_str seed_urls); [|done]. simpl in Hvalid.
    destruct (Config.check_seed_urls seed_urls); [done|]. exact Hvalid.
  - assert (Hpos : (1 <= num_articles)%Z).
    { unfold Config._validate_config_content in Hvalid.
      destruct (Config._seed_urls config) as [| | | | |seed_urls|]; try done.
      destruct (forallb is_str seed_urls); [|done]. simpl in Hvalid.
      destruct (Config.check_seed_urls seed_urls); [done|].
      rewrite Hnum in Hvalid.
      destruct (Z.ltb_spec num_articles 1); [done|lia]. }
    assert (Hlt : (num_articles <=? Z.of_nat (length ([] : list str)))%Z
                  = false).
    { apply Z.leb_gt. simpl. lia. }
    intros fuel. induction fuel as [|fuel IH].
    + cbn [Crawler.find_articles]. by rewrite Hlt.
    + cbn [Crawler.find_articles Crawler.scan_seeds]. rewrite Hlt.
      exact IH.
Qed.

Lemma no_seed_urls_never_returns_witness :
  Config._validate_config_content 150 0 60 (without_seeds sample_config)
    = None /\
  (forall fuel,
     Crawler.find_articles sample_urljoin sample_scheme sample_anchors 5 []
       fuel 0 [] = None).
Proof.
  apply (no_seed_urls_never_returns 150 0 60 sample_config); reflexivity.
Defined.
